(** * PCB inspection: reconciliation of detections and annotation

    A shallow embedding of [windownew.py].  The reconciliation and the
    rendering live in one method, [PCBApp.compare_pcbs]: it copies the test
    image, classifies every test detection by the membership of its label in
    the reference labels, and draws the result on the copy with OpenCV.
    [PCBApp.open_test_file] guards that method with a check on the stored
    reference detections.

    Images are numpy arrays: mutable objects on a heap, passed by reference.
    OpenCV's rasterisers ([cv2.rectangle], [cv2.putText]) and the detector
    are external; they are parameters of the development. *)

From Stdlib Require Import ZArith String.
From Stdlib Require Import QArith.QArith_base.
From stdpp Require Import base option list gmap strings.

Local Open Scope Z_scope.

(** ** Data *)

(** Python object identity of a numpy array. *)
Abbreviation loc := positive.

Inductive dtype := uint8 | int8 | uint16 | int16 | int32 | float32 | float64.

(** A numpy array: its shape tuple, its element type and its raw buffer. *)
Record ndarray := {
  shape : list nat;
  np_dtype : dtype;
  data : list Byte.byte
}.

(** In-place writes go through the buffer only: shape and element type are
    attributes of the array object that drawing never touches. *)
Definition with_data (a : ndarray) (d : list Byte.byte) : ndarray :=
  {| shape := shape a; np_dtype := np_dtype a; data := d |}.

(** A BGR colour tuple. *)
Abbreviation color := (Z * Z * Z)%type.

(** [xyxy]: the four corners of a box, after [astype(int)]. *)
Abbreviation box := (Z * Z * Z * Z)%type.

(** One element of the list [get_detections] returns: [(label, xyxy)]. *)
Abbreviation detection := (string * box)%type.

Inductive font := FONT_HERSHEY_SIMPLEX.

(** The coordinates unpacked from [xyxy] are [numpy.int64] scalars, whose
    arithmetic wraps around. *)
Definition wrap64 (z : Z) : Z := (z + 2 ^ 63) mod 2 ^ 64 - 2 ^ 63.

(** The OpenCV drawing calls the program makes, with their arguments. *)
Inductive cv2_call :=
| Rectangle (img : loc) (pt1 pt2 : Z * Z) (c : color) (thickness : Z)
| PutText (img : loc) (text : string) (org : Z * Z) (fontFace : font)
          (fontScale : Q) (c : color) (thickness : Z).

(** What the Tk side is asked to do. *)
Inductive ui_event :=
| showwarning (title message : string)
| showerror (title message : string)
| askopenfilename (title : string)
| destroy_children
| pack_image (pixels : ndarray)
| pack_text (text : string).

(** The world a method runs in: the arrays alive, and the drawing calls and
    UI requests issued so far (oldest first). *)
Record world := {
  heap : gmap loc ndarray;
  cv2_calls : list cv2_call;
  ui : list ui_event
}.

(** ** A state monad with failure

    [None] is an exception leaving the method; [Some (v, w)] is a normal
    return of [v] in world [w]. *)
Definition M (A : Type) : Type := world → option (A * world).

#[global] Instance M_ret : MRet M := λ A a w, Some (a, w).

#[global] Instance M_bind : MBind M := λ A B k m w,
  match m w with
  | Some (a, w') => k a w'
  | None => None
  end.

Definition raise {A} : M A := λ _, None.

(** [for x in l: body(x)] *)
Fixpoint for_each {A} (l : list A) (body : A → M unit) : M unit :=
  match l with
  | [] => mret tt
  | x :: t => body x ;; for_each t body
  end.

(** A list built by [append] in a loop, one element per iteration. *)
Fixpoint collect {A B} (l : list A) (f : A → M B) : M (list B) :=
  match l with
  | [] => mret []
  | x :: t => y ← f x; ys ← collect t f; mret (y :: ys)
  end.

(** [enumerate(l)], counting from [i]. *)
Fixpoint enumerate_from {A} (i : Z) (l : list A) : list (Z * A) :=
  match l with
  | [] => []
  | x :: t => (i, x) :: enumerate_from (i + 1) t
  end.

Definition enumerate {A} (l : list A) : list (Z * A) := enumerate_from 0 l.

Definition ui_do (e : ui_event) : M unit :=
  λ w, Some (tt, {| heap := heap w; cv2_calls := cv2_calls w; ui := ui w ++ [e] |}).

(** Allocation of a new array object. *)
Definition alloc (a : ndarray) : M loc :=
  λ w, let l := fresh (dom (heap w)) in
       Some (l, {| heap := <[l := a]> (heap w); cv2_calls := cv2_calls w; ui := ui w |}).

Definition read (l : loc) : M ndarray :=
  λ w, match heap w !! l with
       | Some a => Some (a, w)
       | None => None
       end.

(** [a.copy()] *)
Definition ndarray_copy (l : loc) : M loc :=
  a ← read l; alloc a.

(** ** The reconciliation, as [compare_pcbs] computes it *)

(** Line 89 carries the names of the two outcomes in its comment:
    green if correct, red if extra. *)
Inductive status := CORRECT | EXTRA.

Definition GREEN : color := (0, 255, 0).
Definition RED : color := (0, 0, 255).

Definition status_color (s : status) : color :=
  match s with CORRECT => GREEN | EXTRA => RED end.

(** [label in ref_labels] *)
Definition classify (ref_labels : list string) (label : string) : status :=
  if bool_decide (label ∈ ref_labels) then CORRECT else EXTRA.

(** [[d[0] for d in detections]] *)
Definition labels (ds : list detection) : list string := ds.*1.

(** [[lbl for lbl in ref_labels if lbl not in test_labels]] *)
Definition missing (ref_labels test_labels : list string) : list string :=
  filter (λ lbl, lbl ∉ test_labels) ref_labels.

(** The classified entries: one iteration of the first loop each. *)
Definition entries (ref_detections test_detections : list detection)
  : list (string * box * status) :=
  (λ d : detection, (d.1, d.2, classify (labels ref_detections) d.1)) <$> test_detections.

(** The missing entries of a pair of detection sets. *)
Definition missing_entries (ref_detections test_detections : list detection)
  : list string :=
  missing (labels ref_detections) (labels test_detections).

(** Labels in order of first occurrence, each once. *)
Fixpoint first_occurrences (l : list string) : list string :=
  match l with
  | [] => []
  | x :: t => x :: filter (λ y, y ≠ x) (first_occurrences t)
  end.

(** How often a label occurs in a list of labels. *)
Definition count_label (l : string) (ls : list string) : nat :=
  length (filter (λ y, y = l) ls).

(** The drawing calls made between two worlds. *)
Definition new_calls (w w' : world) : list cv2_call :=
  drop (length (cv2_calls w)) (cv2_calls w').

(** A call with its target array replaced. *)
Definition retarget (l : loc) (c : cv2_call) : cv2_call :=
  match c with
  | Rectangle _ pt1 pt2 c th => Rectangle l pt1 pt2 c th
  | PutText _ text org f sc c th => PutText l text org f sc c th
  end.

(** A computation only ever appends to the UI requests. *)
Definition ui_grows {A} (m : M A) : Prop :=
  ∀ w v w', m w = Some (v, w') → ∃ t, ui w' = ui w ++ t.

(** The drawing calls of one classified entry, and of the missing list. *)
Definition entry_calls (img : loc) (e : string * box * status) : list cv2_call :=
  let '(label, (x1, y1, x2, y2), s) := e in
  [ Rectangle img (x1, y1) (x2, y2) (status_color s) 2;
    PutText img label (x1, wrap64 (y1 - 5)) FONT_HERSHEY_SIMPLEX (6 # 10)
            (status_color s) 2 ].

Definition missing_call (img : loc) (p : Z * string) : cv2_call :=
  PutText img ("Missing: " +:+ p.2) (20, 40 + 30 * p.1) FONT_HERSHEY_SIMPLEX
          (8 # 10) RED 2.

Definition draw_calls (img : loc) (ref_detections test_detections : list detection)
  : list cv2_call :=
  (entries ref_detections test_detections ≫= entry_calls img)
  ++ (missing_call img <$> enumerate (missing_entries ref_detections test_detections)).

(** The application object; only the field the file mode uses is kept
    (the camera fields are not read by the methods below). *)
Record PCBApp := {
  reference_detections : option (list detection)
}.

(** [__init__]: line 66. *)
Definition init : PCBApp := {| reference_detections := None |}.

(** What [self.model(frame)] gives back, as far as [get_detections] reads it. *)
Record yolo_box := { cls : Z; xyxy : box }.
Record yolo_results := {
  boxes : list yolo_box;
  names : gmap Z string;
  plot : ndarray
}.

(** A small rasteriser over [height x width x 3] byte buffers, to run the
    model on concrete arrays: it writes the colour on the outline of the
    rectangle, and a one-pixel mark at the origin of a text. *)
Definition byte_of_Z (z : Z) : Byte.byte :=
  match Byte.of_N (Z.to_N (z mod 256)) with Some b => b | None => Byte.x00 end.

Definition channel (c : color) (k : Z) : Z :=
  let '(b, g, r) := c in
  if k =? 0 then b else if k =? 1 then g else r.

Definition repaint (a : ndarray) (hit : Z → Z → bool) (c : color) : list Byte.byte :=
  match shape a with
  | [_; w; 3%nat] =>
      imap (λ i old,
              let i := Z.of_nat i in
              let row := i / (Z.of_nat w * 3) in
              let col := (i / 3) mod Z.of_nat w in
              if hit row col then byte_of_Z (channel c (i mod 3)) else old)
           (data a)
  | _ => data a
  end.

Definition outline_px (a : ndarray) (pt1 pt2 : Z * Z) (c : color) (thickness : Z)
  : list Byte.byte :=
  repaint a (λ row col,
     (pt1.1 <=? col) && (col <=? pt2.1) && (pt1.2 <=? row) && (row <=? pt2.2)
     && ((col <? pt1.1 + thickness) || (pt2.1 - thickness <? col)
         || (row <? pt1.2 + thickness) || (pt2.2 - thickness <? row))) c.

Definition mark_px (a : ndarray) (text : string) (org : Z * Z) (f : font)
    (scale : Q) (c : color) (thickness : Z) : list Byte.byte :=
  repaint a (λ row col, (col =? org.1) && (row =? org.2)) c.

Definition black (h w : nat) : ndarray :=
  {| shape := [h; w; 3%nat]; np_dtype := uint8;
     data := replicate (h * w * 3) Byte.x00 |}.

(** A 4 x 4 board image, alone in the world or next to another array. *)
Definition board : ndarray := black 4 4.

Definition world0 : world :=
  {| heap := {[1%positive := board]}; cv2_calls := []; ui := [] |}.

Definition world1 : world :=
  {| heap := {[1%positive := black 1 1; 5%positive := board]};
     cv2_calls := []; ui := [showerror "Error" "Could not read test image"] |}.

(** The detection sets of the scenario: R1, C1, C1 against R1, C2. *)
Definition ref_scn : list detection :=
  [("R1", (0, 0, 1, 1)); ("C1", (2, 0, 3, 1)); ("C1", (2, 2, 3, 3))].

Definition test_scn : list detection :=
  [("R1", (0, 0, 1, 1)); ("C2", (0, 2, 1, 3))].

(** The same reference labels, found at other places. *)
Definition ref_moved : list detection :=
  [("R1", (1, 1, 2, 2)); ("C1", (0, 2, 1, 3)); ("C1", (2, 1, 3, 2))].

(** A reference that holds a label again after another one, and a test set
    with neither of the two. *)
Definition ref_again : list detection :=
  [("C1", (0, 0, 1, 1)); ("C2", (2, 0, 3, 1)); ("C1", (2, 2, 3, 3))].

Definition test_r1 : list detection := [("R1", (0, 2, 1, 3))].

(** Two test detections of the label that the reference holds once. *)
Definition test_twice : list detection :=
  [("R1", (0, 0, 1, 1)); ("R1", (2, 2, 3, 3)); ("C2", (0, 2, 1, 3))].

(** A detector that finds nothing, a cancelled dialog, an unreadable file
    and a conversion that keeps the pixels. *)
Definition blind_model (a : ndarray) : yolo_results :=
  {| boxes := []; names := ∅; plot := a |}.
Definition cancelled (title : string) : string := "".
Definition unreadable (path : string) : option ndarray := None.
Definition same_pixels (a : ndarray) : ndarray := a.

(** The colour a drawing call is made in. *)
Definition call_color (c : cv2_call) : color :=
  match c with
  | Rectangle _ _ _ c _ => c
  | PutText _ _ _ _ _ c _ => c
  end.

(** The pair [get_detections] appends for one box, when the class of the box
    has a name. *)
Definition box_detection (r : yolo_results) (b : yolo_box) : option detection :=
  (λ label, (label, xyxy b)) <$> names r !! cls b.

(** ** Camera mode: data *)

(** A [cv2.VideoCapture] object, as far as the program uses it; only
    [self.cap] refers to it. *)
Record capture := { isOpened : bool }.

(** The camera fields of the application object (lines 56-57); the file
    mode does not touch them, and the camera mode does not touch the
    reference. *)
Record camera := { cap : option capture; camera_running : bool }.

(** [__init__]: lines 56-57. *)
Definition init_camera : camera := {| cap := None; camera_running := false |}.

(** What the camera mode asks of the device, of Tk and of the file system,
    beside the requests of [ui_event]. *)
Inductive effect :=
| VideoCapture (index : Z)
| cap_read
| cap_release
| after (ms : Z)
| pack_video_label
| pack_capture_button
| configure_video (pixels : ndarray)
| imwrite (filename : string) (pixels : ndarray)
| showinfo (title message : string)
| root_destroy.

(** The world of the camera mode: the world of the file mode, the effects
    so far (oldest first) and the number of frames taken from the device. *)
Record camera_world := {
  base : world;
  effects : list effect;
  reads : nat
}.

Definition CM (A : Type) : Type := camera_world → option (A * camera_world).

#[global] Instance CM_ret : MRet CM := λ A a cw, Some (a, cw).

#[global] Instance CM_bind : MBind CM := λ A B k m cw,
  match m cw with
  | Some (a, cw') => k a cw'
  | None => None
  end.

Definition lift {A} (m : M A) : CM A :=
  λ cw, match m (base cw) with
        | Some (a, w') =>
            Some (a, {| base := w'; effects := effects cw; reads := reads cw |})
        | None => None
        end.

Definition effect_do (e : effect) : CM unit :=
  λ cw, Some (tt, {| base := base cw; effects := effects cw ++ [e];
                     reads := reads cw |}).

(** [datetime.datetime.now()], to the second. *)
Record datetime := {
  year : Z; month : Z; day : Z;
  hour : Z; minute : Z; second : Z
}.

(** The values a [datetime] can hold, from the year 1000 on. *)
Definition valid_datetime (t : datetime) : Prop :=
  1000 ≤ year t ≤ 9999 ∧ 1 ≤ month t ≤ 12 ∧ 1 ≤ day t ≤ 31
  ∧ 0 ≤ hour t < 24 ∧ 0 ≤ minute t < 60 ∧ 0 ≤ second t < 60.

Definition digit (n : Z) : Ascii.ascii :=
  Ascii.ascii_of_N (Z.to_N (48 + n mod 10)).

(** Two and four decimal digits, zero-padded: [%m], [%d], [%H], [%M], [%S]
    and [%Y]. *)
Definition pad2 (n : Z) : string :=
  String (digit (n / 10)) (String (digit n) EmptyString).

Definition pad4 (n : Z) : string :=
  String (digit (n / 1000)) (String (digit (n / 100)) (pad2 n)).

(** [strftime("%Y%m%d_%H%M%S")] *)
Definition strftime_stamp (t : datetime) : string :=
  pad4 (year t) +:+ pad2 (month t) +:+ pad2 (day t) +:+ "_"
  +:+ pad2 (hour t) +:+ pad2 (minute t) +:+ pad2 (second t).

(** Line 62. *)
Definition save_folder : string := "Captured_PCB_Images".

(** Line 148: [f"{self.save_folder}/pcb_{timestamp}.jpg"] *)
Definition capture_filename (t : datetime) : string :=
  save_folder +:+ "/pcb_" +:+ strftime_stamp t +:+ ".jpg".

(** The running flag is only set once a capture is stored. *)
Definition camera_ok (self : camera) : Prop :=
  camera_running self = true → is_Some (cap self).

(** A detector that finds the two components of the test scenario, a device
    that delivers the board once, and a moment. *)
Definition scn_model (a : ndarray) : yolo_results :=
  {| boxes := [ {| cls := 0; xyxy := (0, 0, 1, 1) |};
                {| cls := 1; xyxy := (0, 2, 1, 3) |} ];
     names := {[ 0 := "R1"; 1 := "C2" ]};
     plot := a |}.

Definition nameless_model (a : ndarray) : yolo_results :=
  {| boxes := [ {| cls := 0; xyxy := (0, 0, 1, 1) |};
                {| cls := 7; xyxy := (0, 2, 1, 3) |} ];
     names := {[ 0 := "R1"; 1 := "C2" ]};
     plot := a |}.

Definition board_file (title : string) : string := "board.jpg".
Definition board_on_disk (path : string) : option ndarray := Some board.

Definition one_frame (n : nat) : option ndarray :=
  match n with O => Some board | S _ => None end.

Definition noon : datetime :=
  {| year := 2024; month := 3; day := 9; hour := 12; minute := 0; second := 5 |}.

Definition a_second_later : datetime :=
  {| year := 2024; month := 3; day := 9; hour := 12; minute := 0; second := 6 |}.

Definition camera_world0 : camera_world :=
  {| base := world0; effects := []; reads := 0 |}.

(** The world after the device has delivered its one frame. *)
Definition camera_world1 : camera_world :=
  {| base := world0; effects := [VideoCapture 0; cap_read]; reads := 1 |}.

Definition running_camera : camera :=
  {| cap := Some {| isOpened := true |}; camera_running := true |}.

Section Program.

(** ** External collaborators *)

(** OpenCV's rasterisers: the new content of the buffer they are given. *)
Variable rectangle_px :
  ndarray → Z * Z → Z * Z → color → Z → list Byte.byte.
Variable putText_px :
  ndarray → string → Z * Z → font → Q → color → Z → list Byte.byte.

(** [cv2.rectangle(img, pt1, pt2, color, thickness)]: draws in place. *)
Definition cv2_rectangle (img : loc) (pt1 pt2 : Z * Z) (c : color)
    (thickness : Z) : M unit :=
  λ w, match heap w !! img with
       | Some a =>
           Some (tt, {| heap := <[img := with_data a (rectangle_px a pt1 pt2 c thickness)]> (heap w);
                        cv2_calls := cv2_calls w ++ [Rectangle img pt1 pt2 c thickness];
                        ui := ui w |})
       | None => None
       end.

(** [cv2.putText(img, text, org, fontFace, fontScale, color, thickness)]:
    draws in place. *)
Definition cv2_putText (img : loc) (text : string) (org : Z * Z) (f : font)
    (scale : Q) (c : color) (thickness : Z) : M unit :=
  λ w, match heap w !! img with
       | Some a =>
           Some (tt, {| heap := <[img := with_data a (putText_px a text org f scale c thickness)]> (heap w);
                        cv2_calls := cv2_calls w ++ [PutText img text org f scale c thickness];
                        ui := ui w |})
       | None => None
       end.

(** ** [compare_pcbs] (lines 80-100) *)
Definition compare_pcbs (ref_detections test_detections : list detection)
    (test_img : loc) : M loc :=
  annotated ← ndarray_copy test_img;
  let ref_labels := labels ref_detections in
  let test_labels := labels test_detections in
  for_each test_detections (λ '(label, (x1, y1, x2, y2)),
    let c := if bool_decide (label ∈ ref_labels) then (0, 255, 0) else (0, 0, 255) in
    cv2_rectangle annotated (x1, y1) (x2, y2) c 2 ;;
    cv2_putText annotated label (x1, wrap64 (y1 - 5)) FONT_HERSHEY_SIMPLEX (6 # 10) c 2) ;;
  let missing := missing ref_labels test_labels in
  for_each (enumerate missing) (λ '(i, lbl),
    cv2_putText annotated ("Missing: " +:+ lbl) (20, 40 + 30 * i)
                FONT_HERSHEY_SIMPLEX (8 # 10) (0, 0, 255) 2) ;;
  mret annotated.

(** The pixels a drawing call leaves in a buffer. *)
Definition paint_call (a : ndarray) (c : cv2_call) : ndarray :=
  match c with
  | Rectangle _ pt1 pt2 c th => with_data a (rectangle_px a pt1 pt2 c th)
  | PutText _ text org f sc c th => with_data a (putText_px a text org f sc c th)
  end.

Definition paint (a : ndarray) (cs : list cv2_call) : ndarray :=
  foldl paint_call a cs.

(** The world after the calls [cs] were made on the array at [l]. *)
Definition drawn (l : loc) (a : ndarray) (cs : list cv2_call) (w : world) : world :=
  {| heap := <[l := paint a cs]> (heap w);
     cv2_calls := cv2_calls w ++ cs;
     ui := ui w |}.

(** The detector, the file dialog, the file system and the colour
    conversion. *)
Variable model : ndarray → yolo_results.
Variable chosen_file : string → string.
Variable imread_px : string → option ndarray.
Variable cvtColor_BGR2RGBA : ndarray → ndarray.

(** [filedialog.askopenfilename(title=...)]: the empty string when the
    dialog is cancelled. *)
Definition filedialog_askopenfilename (title : string) : M string :=
  ui_do (askopenfilename title) ;; mret (chosen_file title).

(** [cv2.imread(path)]: a new array, or [None]. *)
Definition cv2_imread (path : string) : M (option loc) :=
  match imread_px path with
  | Some a => l ← alloc a; mret (Some l)
  | None => mret None
  end.

(** [get_detections] (lines 69-78); [names[cls_id]] raises on an unknown
    class. *)
Definition get_detections (frame : loc) : M (list detection * loc) :=
  a ← read frame;
  let results := model a in
  detections ← collect (boxes results) (λ b,
    match names results !! cls b with
    | Some label => mret (label, xyxy b)
    | None => raise
    end);
  plotted ← alloc (plot results);
  mret (detections, plotted).

(** Lines 206-213 and 169-177: convert, wrap and pack the image. *)
Definition show_image (img : loc) : M unit :=
  a ← read img;
  cv2image ← alloc (cvtColor_BGR2RGBA a);
  rgba ← read cv2image;
  ui_do (pack_image rgba).

(** [load_reference] (lines 153-181). *)
Definition load_reference (self : PCBApp) : M PCBApp :=
  file_path ← filedialog_askopenfilename "Select Reference PCB";
  if bool_decide (file_path = "") then mret self else
  frame ← cv2_imread file_path;
  match frame with
  | None => ui_do (showerror "Error" "Could not read reference image") ;; mret self
  | Some frame =>
      r ← get_detections frame;
      let self := {| reference_detections := Some r.1 |} in
      ui_do destroy_children ;;
      show_image r.2 ;;
      ui_do (pack_text "Reference PCB loaded successfully!") ;;
      mret self
  end.

(** [open_test_file] (lines 183-217). *)
Definition open_test_file (self : PCBApp) : M unit :=
  match reference_detections self with
  | None => ui_do (showwarning "Warning" "Load a Reference PCB first")
  | Some reference =>
      file_path ← filedialog_askopenfilename "Select Test PCB";
      if bool_decide (file_path = "") then mret tt else
      frame ← cv2_imread file_path;
      match frame with
      | None => ui_do (showerror "Error" "Could not read test image")
      | Some frame =>
          r ← get_detections frame;
          result_img ← compare_pcbs reference r.1 frame;
          ui_do destroy_children ;;
          show_image result_img ;;
          ui_do (pack_text "Test PCB checked against reference!")
      end
  end.

(** ** Camera mode (lines 103-150 and 220-224) *)

(** Whether [cv2.VideoCapture(0)] opens the device, and the frames the
    device delivers, [None] for a failed read. *)
Variable camera_available : bool.
Variable camera_frame : nat → option ndarray.

(** The next frame of the device. *)
Definition next_frame : CM (option ndarray) :=
  λ cw, Some (camera_frame (reads cw),
              {| base := base cw; effects := effects cw; reads := S (reads cw) |}).

(** [cap.read()]: a new array with the next frame, or no frame; a capture
    that is not open delivers none. *)
Definition cap_read_frame (c : capture) : CM (option loc) :=
  effect_do cap_read ;;
  if isOpened c then
    f ← next_frame;
    match f with
    | Some a => l ← lift (alloc a); mret (Some l)
    | None => mret None
    end
  else mret None.

(** [update_frame] (lines 121-136): one run of the callback. *)
Definition update_frame (self : camera) : CM unit :=
  if negb (camera_running self) then mret tt else
  match cap self with
  | None => λ _, None
  | Some c =>
      frame ← cap_read_frame c;
      match frame with
      | Some frame =>
          r ← lift (get_detections frame);
          a ← lift (read r.2);
          cv2image ← lift (alloc (cvtColor_BGR2RGBA a));
          rgba ← lift (read cv2image);
          effect_do (configure_video rgba)
      | None => mret tt
      end ;;
      effect_do (after 30)
  end.

(** [open_camera] (lines 103-119). *)
Definition open_camera (self : camera) : CM camera :=
  lift (ui_do destroy_children) ;;
  effect_do (VideoCapture 0) ;;
  let c := {| isOpened := camera_available |} in
  if negb (isOpened c) then
    lift (ui_do (showerror "Error" "Cannot open camera")) ;;
    mret {| cap := Some c; camera_running := camera_running self |}
  else
    let self := {| cap := Some c; camera_running := true |} in
    effect_do pack_video_label ;;
    effect_do pack_capture_button ;;
    update_frame self ;;
    mret self.

(** [capture_image] (lines 138-150), at the moment [now]. *)
Definition capture_image (self : camera) (now : datetime) : CM unit :=
  match cap self, camera_running self with
  | Some c, true =>
      frame ← cap_read_frame c;
      match frame with
      | Some frame =>
          r ← lift (get_detections frame);
          annotated_frame ← lift (read r.2);
          let filename := capture_filename now in
          effect_do (imwrite filename annotated_frame) ;;
          effect_do (showinfo "Captured" ("Labeled image saved as " +:+ filename))
      | None => mret tt
      end
  | _, _ => lift (ui_do (showwarning "Warning" "Camera is not running"))
  end.

(** [on_closing] (lines 220-224). *)
Definition on_closing (self : camera) : CM camera :=
  match cap self with
  | Some c =>
      effect_do cap_release ;;
      effect_do root_destroy ;;
      mret {| cap := Some {| isOpened := false |}; camera_running := false |}
  | None =>
      effect_do root_destroy ;;
      mret {| cap := None; camera_running := false |}
  end.

(** ** Running the drawing primitives *)

Lemma bind_fmap_list {A B C} (f : A → B) (g : B → list C) (l : list A) :
  (f <$> l) ≫= g = l ≫= (λ x, g (f x)).
Proof. induction l as [|x t IH]; [done|]. csimpl. by rewrite IH. Qed.

Lemma bind_singleton_list {A B} (f : A → B) (l : list A) :
  l ≫= (λ x, [f x]) = f <$> l.
Proof. induction l as [|x t IH]; [done|]. csimpl. by rewrite IH. Qed.

Lemma bind_run {A B} (m : M A) (k : A → M B) w a w' :
  m w = Some (a, w') → (m ≫= k) w = k a w'.
Proof. intros H. unfold mbind, M_bind. by rewrite H. Qed.

Lemma drawn_lookup l a cs w : heap (drawn l a cs w) !! l = Some (paint a cs).
Proof. apply lookup_insert_eq. Qed.

Lemma drawn_lookup_ne l l' a cs w :
  l ≠ l' → heap (drawn l a cs w) !! l' = heap w !! l'.
Proof. intros H. by apply lookup_insert_ne. Qed.

Lemma drawn_nil l a w : heap w !! l = Some a → drawn l a [] w = w.
Proof.
  intros H. destruct w as [h cs u]. unfold drawn; simpl in *.
  by rewrite insert_id, app_nil_r.
Qed.

Lemma drawn_app l a cs cs' w :
  drawn l (paint a cs) cs' (drawn l a cs w) = drawn l a (cs ++ cs') w.
Proof.
  unfold drawn, paint; simpl.
  by rewrite insert_insert_eq, foldl_app, app_assoc.
Qed.

Lemma cv2_rectangle_run img a pt1 pt2 c th w :
  heap w !! img = Some a →
  cv2_rectangle img pt1 pt2 c th w
  = Some (tt, drawn img a [Rectangle img pt1 pt2 c th] w).
Proof. intros H. unfold cv2_rectangle. by rewrite H. Qed.

Lemma cv2_putText_run img a text org f sc c th w :
  heap w !! img = Some a →
  cv2_putText img text org f sc c th w
  = Some (tt, drawn img a [PutText img text org f sc c th] w).
Proof. intros H. unfold cv2_putText. by rewrite H. Qed.

(** A loop whose body only draws on [img] draws the bodies' calls in
    order. *)
Lemma for_each_drawn {A} (l : list A) (body : A → M unit)
    (calls_of : A → list cv2_call) img :
  (∀ x a w, heap w !! img = Some a →
            body x w = Some (tt, drawn img a (calls_of x) w)) →
  ∀ a w, heap w !! img = Some a →
         for_each l body w = Some (tt, drawn img a (l ≫= calls_of) w).
Proof.
  intros Hbody. induction l as [|x t IH]; intros a w Ha; simpl.
  - by rewrite drawn_nil.
  - erewrite bind_run by (by apply Hbody).
    rewrite (IH (paint a (calls_of x))) by apply drawn_lookup.
    by rewrite drawn_app.
Qed.

Lemma classify_color ref_labels label :
  (if bool_decide (label ∈ ref_labels) then (0, 255, 0) else (0, 0, 255))
  = status_color (classify ref_labels label).
Proof. unfold classify. by case_bool_decide. Qed.

Lemma copy_run l a w :
  heap w !! l = Some a →
  ndarray_copy l w
  = Some (fresh (dom (heap w)),
          {| heap := <[fresh (dom (heap w)) := a]> (heap w);
             cv2_calls := cv2_calls w; ui := ui w |}).
Proof.
  intros H. unfold ndarray_copy. erewrite bind_run; [done|].
  unfold read. by rewrite H.
Qed.

Lemma fresh_ne l (a : ndarray) (h : gmap loc ndarray) :
  h !! l = Some a → fresh (dom h) ≠ l.
Proof.
  intros H E. apply (is_fresh (dom h)). rewrite E.
  apply elem_of_dom. eauto.
Qed.

(** [compare_pcbs] returns: it allocates one array, a copy of the test
    image, and makes exactly the calls of [draw_calls] on it. *)
Lemma compare_pcbs_run ref_detections test_detections test_img a w :
  heap w !! test_img = Some a →
  let annotated := fresh (dom (heap w)) in
  compare_pcbs ref_detections test_detections test_img w
  = Some (annotated,
          drawn annotated a (draw_calls annotated ref_detections test_detections) w).
Proof.
  intros Ha annotated. unfold compare_pcbs.
  erewrite bind_run by (by apply copy_run). fold annotated.
  set (w0 := {| heap := <[annotated := a]> (heap w) |}).
  assert (H0 : heap w0 !! annotated = Some a) by apply lookup_insert_eq.
  erewrite bind_run; cycle 1.
  { apply (for_each_drawn _ _
             (λ d : detection,
                entry_calls annotated
                  (d.1, d.2, classify (labels ref_detections) d.1))
             annotated); [|exact H0].
    intros [label [[[x1 y1] x2] y2]] b v Hb; simpl.
    rewrite classify_color.
    erewrite bind_run by (by apply cv2_rectangle_run).
    erewrite cv2_putText_run by apply drawn_lookup.
    by rewrite drawn_app. }
  erewrite bind_run; cycle 1.
  { apply (for_each_drawn _ _ (λ p, [missing_call annotated p]) annotated).
    - intros [i lbl] b v Hb. by apply cv2_putText_run.
    - apply drawn_lookup. }
  rewrite drawn_app. unfold mret, M_ret. do 2 f_equal.
  unfold draw_calls, entries, missing_entries.
  assert (Hw : drawn annotated a
                 ((test_detections ≫= λ d : detection,
                     entry_calls annotated (d.1, d.2, classify (labels ref_detections) d.1))
                  ++ (enumerate (missing (labels ref_detections) (labels test_detections))
                      ≫= λ p, [missing_call annotated p])) w0
               = drawn annotated a
                 ((test_detections ≫= λ d : detection,
                     entry_calls annotated (d.1, d.2, classify (labels ref_detections) d.1))
                  ++ (enumerate (missing (labels ref_detections) (labels test_detections))
                      ≫= λ p, [missing_call annotated p])) w).
  { unfold drawn, w0; simpl. by rewrite insert_insert_eq. }
  by rewrite Hw, bind_fmap_list, bind_singleton_list.
Qed.

Lemma new_calls_drawn l a cs w : new_calls w (drawn l a cs w) = cs.
Proof. unfold new_calls, drawn; simpl. apply drop_app_length. Qed.

Lemma entry_calls_lookup img (rest : list cv2_call)
    (es : list (string * box * status)) i e :
  es !! i = Some e →
  ((es ≫= entry_calls img) ++ rest) !! (2 * i)%nat = entry_calls img e !! 0%nat
  ∧ ((es ≫= entry_calls img) ++ rest) !! (2 * i + 1)%nat = entry_calls img e !! 1%nat.
Proof.
  revert i. induction es as [|e0 t IH]; intros i Hi; [done|].
  rewrite bind_cons. destruct i as [|i]; simpl in Hi.
  - injection Hi as ->. by destruct e as [[lbl [[[x1 y1] x2] y2]] s].
  - destruct (IH i Hi) as [IH0 IH1].
    replace (2 * S i)%nat with (S (S (2 * i))) by lia.
    by destruct e0 as [[lbl [[[x1 y1] x2] y2]] s].
Qed.

Lemma enumerate_from_lookup {A} (l : list A) k i :
  enumerate_from k l !! i = (λ x, (k + Z.of_nat i, x)) <$> l !! i.
Proof.
  revert k i. induction l as [|x t IH]; intros k i; [done|].
  destruct i as [|i]; simpl.
  - by rewrite Z.add_0_r.
  - rewrite IH. destruct (t !! i); simpl; [|done].
    do 2 f_equal. lia.
Qed.

Lemma enumerate_from_length {A} (l : list A) k :
  length (enumerate_from k l) = length l.
Proof. revert k. induction l as [|x t IH]; intros k; simpl; [done|]. by rewrite IH. Qed.

Lemma count_label_cons l x ls :
  count_label l (x :: ls)
  = ((if bool_decide (x = l) then 1 else 0) + count_label l ls)%nat.
Proof.
  unfold count_label. rewrite filter_cons.
  case_bool_decide; by case_decide.
Qed.

Lemma filter_first_occurrences (P : string → Prop) `{!∀ x, Decision (P x)} l :
  first_occurrences (filter P l) = filter P (first_occurrences l).
Proof.
  induction l as [|x t IH]; [done|]. simpl.
  rewrite !filter_cons. case_decide; simpl.
  - rewrite IH, !list_filter_filter. f_equal.
    apply list_filter_iff. intros y. split; intros [? ?]; by split.
  - rewrite IH, list_filter_filter. apply list_filter_iff.
    intros y. split; [|by intros [? ?]]. intros Hy. split; [done|]. by intros ->.
Qed.

(** ** The reconciliation *)

Example missing_keeps_repetitions :
  missing ["C1"; "C2"; "C1"; "R1"] ["R1"] = ["C1"; "C2"; "C1"].
Proof. reflexivity. Qed.

Example first_occurrences_once :
  first_occurrences ["C1"; "C2"; "C1"; "R1"] = ["C1"; "C2"; "R1"].
Proof. reflexivity. Qed.

Example enumerate_counts_from_zero :
  enumerate ["C1"; "C2"] = [(0, "C1"); (1, "C2")].
Proof. reflexivity. Qed.

Example wrap64_in_range : wrap64 (10 - 5) = 5 ∧ wrap64 (- 2 ^ 63 - 5) = 2 ^ 63 - 5.
Proof. by vm_compute. Qed.

(** C1, as the code has it: a label that occurs in no test detection gets
    one missing entry per occurrence in the reference, so k entries for k
    occurrences (exactly one only when it occurs once). *)
Theorem missing_one_per_reference_occurrence
    (ref_detections test_detections : list detection) (l : string) :
  l ∉ labels test_detections →
  count_label l (missing_entries ref_detections test_detections)
  = count_label l (labels ref_detections).
Proof.
  intros Hl. unfold missing_entries, missing.
  induction (labels ref_detections) as [|x t IH]; [done|].
  rewrite filter_cons. case_decide as Hx.
  - by rewrite !count_label_cons, IH.
  - rewrite count_label_cons, IH. case_bool_decide; [by subst|done].
Qed.

(** C2: every test detection is classified by the membership of its label
    in the reference labels, CORRECT when it occurs there (however often,
    and whatever the other test detections are) and EXTRA otherwise, and is
    drawn in the colour of that status. *)
Theorem classification_by_membership
    (ref_detections test_detections : list detection) test_img a w :
  heap w !! test_img = Some a →
  ∃ annotated w',
    compare_pcbs ref_detections test_detections test_img w = Some (annotated, w')
    ∧ ∀ i label x1 y1 x2 y2,
        test_detections !! i = Some (label, (x1, y1, x2, y2)) →
        ∃ s, entries ref_detections test_detections !! i
             = Some (label, (x1, y1, x2, y2), s)
             ∧ (label ∈ labels ref_detections → s = CORRECT)
             ∧ (label ∉ labels ref_detections → s = EXTRA)
             ∧ new_calls w w' !! (2 * i)%nat
               = Some (Rectangle annotated (x1, y1) (x2, y2) (status_color s) 2)
             ∧ new_calls w w' !! (2 * i + 1)%nat
               = Some (PutText annotated label (x1, wrap64 (y1 - 5))
                               FONT_HERSHEY_SIMPLEX (6 # 10) (status_color s) 2).
Proof.
  intros Ha. eexists _, _. split; [by apply compare_pcbs_run|].
  intros i label x1 y1 x2 y2 Hi.
  exists (classify (labels ref_detections) label).
  assert (He : entries ref_detections test_detections !! i
               = Some (label, (x1, y1, x2, y2), classify (labels ref_detections) label)).
  { unfold entries. by rewrite list_lookup_fmap, Hi. }
  split; [done|]. split; [|split].
  - intros Hin. unfold classify. by rewrite bool_decide_eq_true_2.
  - intros Hin. unfold classify. by rewrite bool_decide_eq_false_2.
  - rewrite new_calls_drawn. unfold draw_calls.
    by destruct (entry_calls_lookup (fresh (dom (heap w)))
                   (missing_call (fresh (dom (heap w))) <$>
                      enumerate (missing_entries ref_detections test_detections))
                   _ _ _ He) as [-> ->].
Qed.

(** C3: there is exactly one classified entry per test detection, so as
    many entries as test detections, and each test detection has exactly
    one status, CORRECT or EXTRA and never both; the call draws one
    rectangle and one label per entry, in the one colour of its status. *)
Theorem one_entry_per_test_detection
    (ref_detections test_detections : list detection) test_img a w :
  heap w !! test_img = Some a →
  length (entries ref_detections test_detections) = length test_detections
  ∧ (∀ i d, test_detections !! i = Some d →
            ∃ s, entries ref_detections test_detections !! i = Some (d.1, d.2, s)
                 ∧ ∀ s', entries ref_detections test_detections !! i
                         = Some (d.1, d.2, s') → s' = s)
  ∧ status_color CORRECT ≠ status_color EXTRA
  ∧ ∃ annotated w',
      compare_pcbs ref_detections test_detections test_img w = Some (annotated, w')
      ∧ take (2 * length test_detections) (new_calls w w')
        = entries ref_detections test_detections ≫= entry_calls annotated
      ∧ drop (2 * length test_detections) (new_calls w w')
        = missing_call annotated
            <$> enumerate (missing_entries ref_detections test_detections).
Proof.
  intros Ha.
  split; [apply length_fmap|]. split; [|split; [done|]].
  - intros i d Hi. exists (classify (labels ref_detections) d.1).
    unfold entries. rewrite list_lookup_fmap, Hi; simpl.
    split; [done|]. by intros s' [= <-].
  - eexists _, _. split; [by apply compare_pcbs_run|].
    rewrite new_calls_drawn. unfold draw_calls.
    assert (Hlen : length (entries ref_detections test_detections
                            ≫= entry_calls (fresh (dom (heap w))))
                   = (2 * length test_detections)%nat).
    { unfold entries.
      induction test_detections as [|[lbl [[[x1 y1] x2] y2]] t IH]; [done|].
      csimpl. rewrite IH. lia. }
    rewrite <- Hlen. by rewrite take_app_length, drop_app_length.
Qed.

Lemma filter_embedding {A} (P : A → Prop) `{!∀ x, Decision (P x)} (l : list A) :
  ∃ f : nat → nat,
    (∀ i j, (i < j)%nat → (f i < f j)%nat)
    ∧ (∀ i x, filter P l !! i = Some x → l !! f i = Some x ∧ P x)
    ∧ (∀ k x, l !! k = Some x → P x → ∃ i, f i = k ∧ filter P l !! i = Some x).
Proof.
  induction l as [|y t (f & Hmono & Hin & Hall)].
  - exists id. split; [by intros i j Hij|]. by split.
  - rewrite filter_cons. case_decide as Hy.
    + exists (λ i, match i with O => O | S i => S (f i) end).
      split; [|split].
      * intros [|i] [|j] Hij; try lia.
        assert (f i < f j)%nat by (apply Hmono; lia). lia.
      * intros [|i] x Hx; simpl in *.
        -- injection Hx as <-. by split.
        -- by apply Hin.
      * intros [|k] x Hk Hx; simpl in *.
        -- injection Hk as <-. by exists O.
        -- destruct (Hall k x Hk Hx) as (i & <- & Hi). by exists (S i).
    + exists (λ i, S (f i)). split; [|split].
      * intros i j Hij. assert (f i < f j)%nat by by apply Hmono. lia.
      * intros i x Hx. by apply Hin.
      * intros [|k] x Hk Hx; simpl in *.
        -- injection Hk as <-. done.
        -- destruct (Hall k x Hk Hx) as (i & <- & Hi). by exists i.
Qed.

(** C5, as the code has it: the comparison draws the test detections in
    the order of the test input, the i-th pair of calls showing the box and
    the label of the i-th test detection, and then the lines of the missing
    sequence in its order.  The missing sequence holds the occurrences of
    the absent labels in the reference, each of them and in the order of the
    reference input, so a label that occurs again in the reference is listed
    again at that place; taken at their first occurrences, its labels are
    the absent labels in the order of their first occurrence in the
    reference. *)
Theorem result_follows_input_order
    (ref_detections test_detections : list detection) test_img a w :
  heap w !! test_img = Some a →
  ∃ annotated w',
    compare_pcbs ref_detections test_detections test_img w = Some (annotated, w')
    ∧ (λ e : string * box * status, (e.1.1, e.1.2))
        <$> entries ref_detections test_detections = test_detections
    ∧ (∀ i label x1 y1 x2 y2,
         test_detections !! i = Some (label, (x1, y1, x2, y2)) →
         ∃ c, new_calls w w' !! (2 * i)%nat
              = Some (Rectangle annotated (x1, y1) (x2, y2) c 2)
              ∧ new_calls w w' !! (2 * i + 1)%nat
                = Some (PutText annotated label (x1, wrap64 (y1 - 5))
                                FONT_HERSHEY_SIMPLEX (6 # 10) c 2))
    ∧ drop (2 * length test_detections) (new_calls w w')
      = missing_call annotated
          <$> enumerate (missing_entries ref_detections test_detections)
    ∧ missing_entries ref_detections test_detections
        `sublist_of` labels ref_detections
    ∧ (∃ f : nat → nat,
         (∀ i j, (i < j)%nat → (f i < f j)%nat)
         ∧ (∀ i l, missing_entries ref_detections test_detections !! i = Some l →
                   labels ref_detections !! f i = Some l
                   ∧ l ∉ labels test_detections)
         ∧ (∀ k l, labels ref_detections !! k = Some l →
                   l ∉ labels test_detections →
                   ∃ i, f i = k
                        ∧ missing_entries ref_detections test_detections !! i = Some l))
    ∧ first_occurrences (missing_entries ref_detections test_detections)
      = filter (λ l, l ∉ labels test_detections)
               (first_occurrences (labels ref_detections)).
Proof.
  intros Ha. eexists _, _. split; [by apply compare_pcbs_run|].
  rewrite new_calls_drawn. unfold draw_calls.
  split; [|split; [|split; [|split; [|split]]]].
  - unfold entries. rewrite <- list_fmap_compose.
    rewrite <- (list_fmap_id test_detections) at 2.
    apply list_fmap_ext. by intros i [lbl b] _.
  - intros i label x1 y1 x2 y2 Hi.
    exists (status_color (classify (labels ref_detections) label)).
    assert (He : entries ref_detections test_detections !! i
                 = Some (label, (x1, y1, x2, y2), classify (labels ref_detections) label)).
    { unfold entries. by rewrite list_lookup_fmap, Hi. }
    by destruct (entry_calls_lookup (fresh (dom (heap w)))
                   (missing_call (fresh (dom (heap w))) <$>
                      enumerate (missing_entries ref_detections test_detections))
                   _ _ _ He) as [-> ->].
  - assert (Hlen : length (entries ref_detections test_detections
                            ≫= entry_calls (fresh (dom (heap w))))
                   = (2 * length test_detections)%nat).
    { unfold entries.
      induction test_detections as [|[lbl [[[x1 y1] x2] y2]] t IH]; [done|].
      csimpl. rewrite IH. lia. }
    rewrite <- Hlen. apply drop_app_length.
  - apply sublist_filter.
  - apply filter_embedding.
  - apply filter_first_occurrences.
Qed.

(** C6: with an empty reference every test detection is EXTRA and
    nothing is missing; with both sets empty the comparison still returns,
    with no entry, no missing label and nothing drawn. *)
Theorem empty_reference (test_detections : list detection) test_img a w :
  heap w !! test_img = Some a →
  entries [] test_detections
  = (λ d : detection, (d.1, d.2, EXTRA)) <$> test_detections
  ∧ missing_entries [] test_detections = []
  ∧ (∃ annotated w',
       compare_pcbs [] test_detections test_img w = Some (annotated, w')
       ∧ new_calls w w'
         = (test_detections ≫= λ d : detection,
              entry_calls annotated (d.1, d.2, EXTRA)))
  ∧ (∃ annotated w',
       compare_pcbs [] [] test_img w = Some (annotated, w')
       ∧ entries [] [] = [] ∧ missing_entries [] [] = []
       ∧ new_calls w w' = [] ∧ heap w' !! annotated = Some a).
Proof.
  intros Ha.
  assert (He : entries [] test_detections
               = (λ d : detection, (d.1, d.2, EXTRA)) <$> test_detections).
  { unfold entries. apply list_fmap_ext. intros i d _.
    unfold classify. rewrite bool_decide_eq_false_2; [done|].
    apply not_elem_of_nil. }
  split; [done|]. split; [done|]. split.
  - eexists _, _. split; [by apply compare_pcbs_run|].
    rewrite new_calls_drawn. unfold draw_calls. rewrite He.
    rewrite bind_fmap_list. apply app_nil_r.
  - eexists _, _. split; [by apply compare_pcbs_run|].
    rewrite new_calls_drawn, drawn_lookup. done.
Qed.

(** ** The rendering *)

Lemma paint_shape a cs :
  shape (paint a cs) = shape a ∧ np_dtype (paint a cs) = np_dtype a.
Proof.
  revert a. induction cs as [|c t IH]; intros a; [done|].
  unfold paint; simpl. fold (paint (paint_call a c) t).
  destruct (IH (paint_call a c)) as [-> ->]. by destruct c.
Qed.

Lemma paint_retarget l a cs : paint a (retarget l <$> cs) = paint a cs.
Proof.
  revert a. induction cs as [|c t IH]; intros a; [done|].
  unfold paint; csimpl. fold (paint (paint_call a (retarget l c)) (retarget l <$> t)).
  fold (paint (paint_call a c) t). rewrite IH. by destruct c.
Qed.

Lemma draw_calls_retarget l l' ref_detections test_detections :
  retarget l' <$> draw_calls l ref_detections test_detections
  = draw_calls l' ref_detections test_detections.
Proof.
  unfold draw_calls. rewrite fmap_app, <- list_fmap_compose. f_equal.
  induction (entries ref_detections test_detections)
    as [|[[lbl [[[x1 y1] x2] y2]] s] t IH]; [done|].
  rewrite !bind_cons, fmap_app, IH. done.
Qed.

Lemma paint_draw_calls l l' a ref_detections test_detections :
  paint a (draw_calls l ref_detections test_detections)
  = paint a (draw_calls l' ref_detections test_detections).
Proof. by rewrite <- (draw_calls_retarget l l'), paint_retarget. Qed.

(** C7: the base image is never written: the result is a new array,
    distinct from the input and from every array alive before the call;
    the input and all other arrays keep their content; with no entry and
    no missing label the result is a plain copy of the input. *)
Theorem base_image_untouched
    (ref_detections test_detections : list detection) test_img a w :
  heap w !! test_img = Some a →
  ∃ annotated w',
    compare_pcbs ref_detections test_detections test_img w = Some (annotated, w')
    ∧ annotated ≠ test_img
    ∧ heap w !! annotated = None
    ∧ heap w' !! test_img = Some a
    ∧ (∀ l, l ≠ annotated → heap w' !! l = heap w !! l)
    ∧ (entries ref_detections test_detections = [] →
       missing_entries ref_detections test_detections = [] →
       heap w' !! annotated = Some a).
Proof.
  intros Ha. eexists _, _. split; [by apply compare_pcbs_run|].
  pose proof (fresh_ne _ _ _ Ha) as Hne.
  split; [done|]. split; [|split; [|split]].
  - apply not_elem_of_dom, is_fresh.
  - by rewrite drawn_lookup_ne.
  - intros l Hl. by rewrite drawn_lookup_ne.
  - intros He Hm. rewrite drawn_lookup. unfold draw_calls.
    by rewrite He, Hm.
Qed.

(** C8: the pixels of the result depend on the pixels of the base image
    and on the comparison result only: two calls on pixel-identical base
    images with equal entries and equal missing labels, in any two worlds,
    return pixel-identical images; so does a second call made after the
    first. *)
Theorem render_deterministic
    (ref1 test1 ref2 test2 : list detection) t1 t2 a w1 w2 :
  heap w1 !! t1 = Some a →
  heap w2 !! t2 = Some a →
  entries ref1 test1 = entries ref2 test2 →
  missing_entries ref1 test1 = missing_entries ref2 test2 →
  ∃ r1 w1' r2 w2' out,
    compare_pcbs ref1 test1 t1 w1 = Some (r1, w1')
    ∧ compare_pcbs ref2 test2 t2 w2 = Some (r2, w2')
    ∧ heap w1' !! r1 = Some out
    ∧ heap w2' !! r2 = Some out
    ∧ ∃ r3 w3,
        compare_pcbs ref1 test1 t1 w1' = Some (r3, w3)
        ∧ r3 ≠ r1
        ∧ heap w3 !! r1 = Some out
        ∧ heap w3 !! r3 = Some out.
Proof.
  intros H1 H2 He Hm.
  assert (Hd : ∀ l, draw_calls l ref2 test2 = draw_calls l ref1 test1).
  { intros l. unfold draw_calls. by rewrite He, Hm. }
  pose proof (fresh_ne _ _ _ H1) as Hne.
  set (r1 := fresh (dom (heap w1))) in *.
  set (w1' := drawn r1 a (draw_calls r1 ref1 test1) w1).
  assert (H1' : heap w1' !! t1 = Some a).
  { unfold w1'. by rewrite drawn_lookup_ne. }
  assert (Hr1 : heap w1' !! r1 = Some (paint a (draw_calls r1 ref1 test1))).
  { apply drawn_lookup. }
  exists r1, w1'. eexists _, _, _.
  split; [by apply compare_pcbs_run|].
  split; [by apply compare_pcbs_run|].
  split; [exact Hr1|].
  split; [rewrite drawn_lookup, Hd; f_equal; apply paint_draw_calls|].
  eexists _, _. split; [by apply compare_pcbs_run|].
  pose proof (fresh_ne _ _ _ Hr1) as Hne3.
  split; [done|]. split.
  - by rewrite drawn_lookup_ne.
  - rewrite drawn_lookup. f_equal. apply paint_draw_calls.
Qed.

(** C9: after the calls of the entries, the renderer makes exactly one
    text call per missing label, in the order of the missing sequence:
    the text is the literal "Missing: " followed by the label, at
    (20, 40 + 30 i) for the i-th label, in the colour of EXTRA. *)
Theorem missing_lines
    (ref_detections test_detections : list detection) test_img a w :
  heap w !! test_img = Some a →
  ∃ annotated w' lines,
    compare_pcbs ref_detections test_detections test_img w = Some (annotated, w')
    ∧ new_calls w w'
      = (entries ref_detections test_detections ≫= entry_calls annotated) ++ lines
    ∧ length lines = length (missing_entries ref_detections test_detections)
    ∧ ∀ i lbl,
        missing_entries ref_detections test_detections !! i = Some lbl →
        lines !! i
        = Some (PutText annotated ("Missing: " +:+ lbl) (20, 40 + 30 * Z.of_nat i)
                        FONT_HERSHEY_SIMPLEX (8 # 10) (status_color EXTRA) 2).
Proof.
  intros Ha. eexists _, _, _. split; [by apply compare_pcbs_run|].
  rewrite new_calls_drawn. split; [reflexivity|]. split.
  - unfold enumerate. by rewrite length_fmap, enumerate_from_length.
  - intros i lbl Hi. unfold enumerate.
    by rewrite list_lookup_fmap, enumerate_from_lookup, Hi.
Qed.

(** C10: the annotated image has the shape (height, width, channels) and
    the element type of the test image. *)
Theorem annotated_same_dimensions
    (ref_detections test_detections : list detection) test_img a w :
  heap w !! test_img = Some a →
  ∃ annotated w' out,
    compare_pcbs ref_detections test_detections test_img w = Some (annotated, w')
    ∧ heap w' !! annotated = Some out
    ∧ shape out = shape a
    ∧ np_dtype out = np_dtype a.
Proof.
  intros Ha. eexists _, _, _. split; [by apply compare_pcbs_run|].
  split; [apply drawn_lookup|]. apply paint_shape.
Qed.

(** ** The guard of [open_test_file] *)

Lemma ui_grows_ret {A} (a : A) : ui_grows (mret a).
Proof. intros w v w' [= _ <-]. exists []. by rewrite app_nil_r. Qed.

Lemma ui_grows_raise {A} : ui_grows (@raise A).
Proof. by intros w v w' H. Qed.

Lemma ui_grows_bind {A B} (m : M A) (k : A → M B) :
  ui_grows m → (∀ a, ui_grows (k a)) → ui_grows (m ≫= k).
Proof.
  intros Hm Hk w v w' H. unfold mbind, M_bind in H.
  destruct (m w) as [[a w1]|] eqn:E; [|done].
  destruct (Hm _ _ _ E) as [t1 H1], (Hk _ _ _ _ H) as [t2 H2].
  exists (t1 ++ t2). by rewrite H2, H1, app_assoc.
Qed.

Lemma ui_grows_ui_do e : ui_grows (ui_do e).
Proof. intros w v w' [= _ <-]. by exists [e]. Qed.

Lemma ui_grows_alloc a : ui_grows (alloc a).
Proof. intros w v w' [= _ <-]. exists []. simpl. by rewrite app_nil_r. Qed.

Lemma ui_grows_read l : ui_grows (read l).
Proof.
  intros w v w' H. unfold read in H.
  destruct (heap w !! l); [|done]. injection H as _ <-.
  exists []. by rewrite app_nil_r.
Qed.

Lemma ui_grows_rectangle img pt1 pt2 c th :
  ui_grows (cv2_rectangle img pt1 pt2 c th).
Proof.
  intros w v w' H. unfold cv2_rectangle in H.
  destruct (heap w !! img); [|done]. injection H as _ <-.
  exists []. simpl. by rewrite app_nil_r.
Qed.

Lemma ui_grows_putText img text org f sc c th :
  ui_grows (cv2_putText img text org f sc c th).
Proof.
  intros w v w' H. unfold cv2_putText in H.
  destruct (heap w !! img); [|done]. injection H as _ <-.
  exists []. simpl. by rewrite app_nil_r.
Qed.

Lemma ui_grows_for_each {A} (l : list A) (body : A → M unit) :
  (∀ x, ui_grows (body x)) → ui_grows (for_each l body).
Proof.
  intros Hb. induction l as [|x t IH]; simpl.
  - apply ui_grows_ret.
  - apply ui_grows_bind; [apply Hb|by intros _].
Qed.

Lemma ui_grows_collect {A B} (l : list A) (f : A → M B) :
  (∀ x, ui_grows (f x)) → ui_grows (collect l f).
Proof.
  intros Hf. induction l as [|x t IH]; simpl.
  - apply ui_grows_ret.
  - apply ui_grows_bind; [apply Hf|intros y].
    apply ui_grows_bind; [apply IH|intros ys]. apply ui_grows_ret.
Qed.

Create HintDb grows.

#[local] Hint Resolve ui_grows_ret ui_grows_raise ui_grows_ui_do ui_grows_alloc
  ui_grows_read ui_grows_rectangle ui_grows_putText : grows.

Ltac grows :=
  repeat first
    [ apply ui_grows_bind; [|intros ?]
    | apply ui_grows_for_each; intros ?
    | apply ui_grows_collect; intros ?
    | solve [auto with grows]
    | case_match ].

Lemma ui_grows_compare_pcbs ref_detections test_detections test_img :
  ui_grows (compare_pcbs ref_detections test_detections test_img).
Proof. unfold compare_pcbs, ndarray_copy. grows. Qed.

Lemma ui_grows_get_detections frame : ui_grows (get_detections frame).
Proof. unfold get_detections. grows. Qed.

Lemma ui_grows_show_image img : ui_grows (show_image img).
Proof. unfold show_image. grows. Qed.

Lemma ui_grows_cv2_imread path : ui_grows (cv2_imread path).
Proof. unfold cv2_imread. grows. Qed.

(** With a reference loaded, whatever it holds, the method first opens
    the file dialog. *)
Lemma open_test_file_asks reference w v w' :
  open_test_file {| reference_detections := Some reference |} w = Some (v, w') →
  ∃ t, ui w' = ui w ++ askopenfilename "Select Test PCB" :: t.
Proof.
  unfold open_test_file, filedialog_askopenfilename; simpl. intros H.
  unfold mbind at 1, M_bind at 1 in H. unfold mbind at 1, M_bind at 1 in H.
  simpl in H.
  match type of H with ?k ?w1 = _ =>
    assert (Hk : ∃ t, ui w' = ui w1 ++ t) end.
  { revert H. generalize (chosen_file "Select Test PCB"). intros path.
    match goal with |- ?m _ = _ → _ => assert (Hg : ui_grows m) end.
    { case_match; [apply ui_grows_ret|].
      apply ui_grows_bind; [apply ui_grows_cv2_imread|intros [frame|]];
        [|apply ui_grows_ui_do].
      apply ui_grows_bind; [apply ui_grows_get_detections|intros r].
      apply ui_grows_bind; [apply ui_grows_compare_pcbs|intros img].
      apply ui_grows_bind; [apply ui_grows_ui_do|intros _].
      apply ui_grows_bind; [apply ui_grows_show_image|intros _].
      apply ui_grows_ui_do. }
    apply Hg. }
  destruct Hk as [t Ht]. exists t. simpl in Ht. by rewrite Ht, <- app_assoc.
Qed.

(** C4, as the code has it: without a reference the method shows the
    warning and returns normally; it opens no dialog, reads no file,
    allocates no array and draws nothing, and this is not what it does on
    an empty reference. *)
Theorem no_reference_warns (self : PCBApp) (w : world) :
  reference_detections self = None →
  open_test_file self w
  = Some (tt, {| heap := heap w; cv2_calls := cv2_calls w;
                 ui := ui w ++ [showwarning "Warning" "Load a Reference PCB first"] |})
  ∧ open_test_file self w
    ≠ open_test_file {| reference_detections := Some [] |} w.
Proof.
  intros Hnone.
  assert (E : open_test_file self w
              = Some (tt, {| heap := heap w; cv2_calls := cv2_calls w;
                             ui := ui w ++ [showwarning "Warning" "Load a Reference PCB first"] |})).
  { unfold open_test_file. by rewrite Hnone. }
  split; [exact E|]. rewrite E. intros Heq. symmetry in Heq.
  destruct (open_test_file_asks _ _ _ _ Heq) as [t Ht]. simpl in Ht.
  apply app_inv_head in Ht. discriminate Ht.
Qed.

(** ** More on the reconciliation *)

Lemma entry_calls_color img e c :
  c ∈ entry_calls img e → call_color c = status_color e.2.
Proof.
  destruct e as [[lbl [[[x1 y1] x2] y2]] s]. simpl.
  rewrite !elem_of_cons, elem_of_nil. by intros [->|[->|[]]].
Qed.

Lemma missing_nil_iff (ref_labels test_labels : list string) :
  missing ref_labels test_labels = [] ↔ ∀ l, l ∈ ref_labels → l ∈ test_labels.
Proof.
  unfold missing. split.
  - intros Hnil l Hl. destruct (decide (l ∈ test_labels)) as [|Hn]; [done|].
    by destruct (filter_nil_not_elem_of _ _ l Hnil Hn).
  - intros Hall. induction ref_labels as [|x t IH]; [done|].
    rewrite filter_cons. case_decide as Hx.
    + destruct Hx. apply Hall. left.
    + apply IH. intros l Hl. apply Hall. by right.
Qed.

Lemma entries_length_calls img (es : list (string * box * status)) :
  length (es ≫= entry_calls img) = (2 * length es)%nat.
Proof.
  induction es as [|[[lbl [[[x1 y1] x2] y2]] s] t IH]; [done|].
  csimpl. rewrite IH. lia.
Qed.

(** With an empty test set nothing is classified and every reference
    detection is reported: one "Missing" line per reference detection, in
    the order of the reference, and nothing else is drawn. *)
Theorem empty_test (ref_detections : list detection) test_img a w :
  heap w !! test_img = Some a →
  entries ref_detections [] = []
  ∧ missing_entries ref_detections [] = labels ref_detections
  ∧ ∃ annotated w',
      compare_pcbs ref_detections [] test_img w = Some (annotated, w')
      ∧ new_calls w w' = missing_call annotated <$> enumerate (labels ref_detections)
      ∧ length (new_calls w w') = length ref_detections.
Proof.
  intros Ha.
  assert (Hm : missing_entries ref_detections [] = labels ref_detections).
  { unfold missing_entries, missing.
    induction (labels ref_detections) as [|x t IH]; [done|].
    rewrite filter_cons_True by apply not_elem_of_nil. by rewrite IH. }
  split; [done|]. split; [done|].
  eexists _, _. split; [by apply compare_pcbs_run|].
  rewrite new_calls_drawn. unfold draw_calls. rewrite Hm. split; [done|].
  simpl. unfold enumerate, labels.
  by rewrite length_fmap, enumerate_from_length, length_fmap.
Qed.

Lemma draw_calls_green_iff img (ref_detections test_detections : list detection) :
  (∀ c, c ∈ draw_calls img ref_detections test_detections → call_color c = GREEN)
  ↔ (∀ l, l ∈ labels ref_detections ↔ l ∈ labels test_detections).
Proof.
  unfold draw_calls. split.
  - intros Hgreen l. split.
    + revert l. apply missing_nil_iff. fold (missing_entries ref_detections test_detections).
      destruct (missing_entries ref_detections test_detections) as [|x t] eqn:E; [done|].
      exfalso. assert (Hred : RED = GREEN); [|done].
      apply (Hgreen (missing_call img (0, x))).
      apply elem_of_app. right. unfold enumerate. simpl. left.
    + intros Hl. apply list_elem_of_fmap in Hl as [[lbl b] [-> Hd]]. simpl.
      destruct (decide (lbl ∈ labels ref_detections)) as [|Hn]; [done|].
      exfalso. assert (Hred : RED = GREEN); [|done].
      destruct b as [[[x1 y1] x2] y2].
      rewrite <- (Hgreen (Rectangle img (x1, y1) (x2, y2) RED 2)); [done|].
      apply elem_of_app. left. apply list_elem_of_bind.
      exists (lbl, (x1, y1, x2, y2), EXTRA). split; [left|].
      unfold entries. apply list_elem_of_fmap.
      exists (lbl, (x1, y1, x2, y2)). split; [|done]. simpl.
      unfold classify. by rewrite bool_decide_eq_false_2.
  - intros Hsame c Hc. apply elem_of_app in Hc as [Hc|Hc].
    + apply list_elem_of_bind in Hc as (e & Hc & He).
      rewrite (entry_calls_color _ _ _ Hc).
      unfold entries in He. apply list_elem_of_fmap in He as [d [-> Hd]]. simpl.
      unfold classify. rewrite bool_decide_eq_true_2; [done|].
      apply Hsame, list_elem_of_fmap. by exists d.
    + assert (Hnil : missing_entries ref_detections test_detections = []).
      { apply missing_nil_iff. intros l. apply Hsame. }
      rewrite Hnil in Hc. by apply elem_of_nil in Hc.
Qed.

(** The annotated image carries no red mark exactly when the two detection
    sets hold the same labels: every call of the comparison is made in green
    if and only if each reference label occurs in the test set and each test
    label occurs in the reference. *)
Theorem all_green_iff_same_labels
    (ref_detections test_detections : list detection) test_img a w :
  heap w !! test_img = Some a →
  ∃ annotated w',
    compare_pcbs ref_detections test_detections test_img w = Some (annotated, w')
    ∧ ((∀ c, c ∈ new_calls w w' → call_color c = GREEN)
       ↔ (∀ l, l ∈ labels ref_detections ↔ l ∈ labels test_detections)).
Proof.
  intros Ha. eexists _, _. split; [by apply compare_pcbs_run|].
  rewrite new_calls_drawn. apply draw_calls_green_iff.
Qed.

(** The reference enters the classification as a set of labels only: two
    references with the same labels, in whatever order, number and place,
    classify every test set alike and make the comparison draw the same
    boxes and labels. *)
Theorem reference_only_as_label_set
    (ref1 ref2 test_detections : list detection) test_img a w :
  heap w !! test_img = Some a →
  (∀ l, l ∈ labels ref1 ↔ l ∈ labels ref2) →
  entries ref1 test_detections = entries ref2 test_detections
  ∧ ∃ annotated w1 w2,
      compare_pcbs ref1 test_detections test_img w = Some (annotated, w1)
      ∧ compare_pcbs ref2 test_detections test_img w = Some (annotated, w2)
      ∧ take (2 * length test_detections) (new_calls w w1)
        = take (2 * length test_detections) (new_calls w w2).
Proof.
  intros Ha Hsame.
  assert (He : entries ref1 test_detections = entries ref2 test_detections).
  { unfold entries. apply list_fmap_ext. intros i d _.
    unfold classify. by rewrite (bool_decide_ext _ _ (Hsame d.1)). }
  split; [done|]. eexists _, _, _.
  split; [by apply compare_pcbs_run|]. split; [by apply compare_pcbs_run|].
  rewrite !new_calls_drawn. unfold draw_calls. rewrite <- He.
  assert (Hlen : length (entries ref1 test_detections ≫= entry_calls (fresh (dom (heap w))))
                 = (2 * length test_detections)%nat).
  { rewrite entries_length_calls. unfold entries. by rewrite length_fmap. }
  rewrite <- Hlen. by rewrite !take_app_length.
Qed.

(** Every reference label is accounted for in exactly one way: either it is
    listed as missing and no entry carries it, or it is not listed and some
    test detection with that label is CORRECT. *)
Theorem reference_label_accounted
    (ref_detections test_detections : list detection) (l : string) :
  l ∈ labels ref_detections →
  (l ∈ missing_entries ref_detections test_detections
   ∧ ∀ e, e ∈ entries ref_detections test_detections → e.1.1 ≠ l)
  ∨ ((l ∉ missing_entries ref_detections test_detections)
     ∧ ∃ b, (l, b, CORRECT) ∈ entries ref_detections test_detections).
Proof.
  intros Hl. unfold missing_entries, missing.
  destruct (decide (l ∈ labels test_detections)) as [Hin|Hn].
  - right. split.
    + rewrite list_elem_of_filter. by intros [Hn _].
    + apply list_elem_of_fmap in Hin as [[lbl b] [-> Hd]]. exists b.
      unfold entries. apply list_elem_of_fmap. exists (lbl, b).
      split; [|done]. simpl. unfold classify. by rewrite bool_decide_eq_true_2.
  - left. split.
    + by apply list_elem_of_filter.
    + intros e He <-. apply Hn. unfold entries in He.
      apply list_elem_of_fmap in He as [d [-> Hd]]. simpl.
      apply list_elem_of_fmap. by exists d.
Qed.

(** ** [get_detections] *)

Lemma collect_option {A B} (g : A → option B) (f : A → M B) l w :
  (∀ x, f x = match g x with Some y => mret y | None => raise end) →
  collect l f w = (λ ys, (ys, w)) <$> mapM g l.
Proof.
  intros Hf. induction l as [|x t IH]; [done|].
  simpl. unfold mbind at 1, M_bind at 1. rewrite Hf.
  destruct (g x) as [y|]; simpl; [|done].
  unfold mbind at 1, M_bind at 1. rewrite IH.
  by destruct (mapM g t).
Qed.

Lemma get_detections_run frame a w :
  heap w !! frame = Some a →
  get_detections frame w
  = match mapM (box_detection (model a)) (boxes (model a)) with
    | Some ds =>
        Some ((ds, fresh (dom (heap w))),
              {| heap := <[fresh (dom (heap w)) := plot (model a)]> (heap w);
                 cv2_calls := cv2_calls w; ui := ui w |})
    | None => None
    end.
Proof.
  intros Ha. unfold get_detections.
  erewrite bind_run by (unfold read; by rewrite Ha).
  unfold mbind at 1, M_bind at 1.
  rewrite (collect_option (box_detection (model a))).
  - by destruct (mapM _ _).
  - intros b. unfold box_detection. by destruct (names (model a) !! cls b).
Qed.

(** When every detected class has a name, [get_detections] returns one
    pair per box, in the order of the boxes, each with the name of the class
    and the corners of the box; it puts the plotted image in a new array and
    leaves the frame and every other array, the drawing calls and the UI as
    they are. *)
Theorem get_detections_returns frame a w :
  heap w !! frame = Some a →
  (∀ b, b ∈ boxes (model a) → is_Some (names (model a) !! cls b)) →
  ∃ ds plotted w',
    get_detections frame w = Some ((ds, plotted), w')
    ∧ length ds = length (boxes (model a))
    ∧ (∀ i b, boxes (model a) !! i = Some b →
              ∃ label, names (model a) !! cls b = Some label
                       ∧ ds !! i = Some (label, xyxy b))
    ∧ heap w !! plotted = None
    ∧ heap w' !! plotted = Some (plot (model a))
    ∧ (∀ l, l ≠ plotted → heap w' !! l = heap w !! l)
    ∧ cv2_calls w' = cv2_calls w
    ∧ ui w' = ui w.
Proof.
  intros Ha Hnames. rewrite (get_detections_run _ _ _ Ha).
  destruct (mapM _ _) as [ds|] eqn:E.
  - apply mapM_Some in E. eexists _, _, _. split; [done|]. simpl.
    split; [symmetry; by eapply Forall2_length|]. split; [|split; [|split; [|split]]].
    + intros i b Hb.
      destruct (Forall2_lookup_l _ _ _ _ _ E Hb) as (d & Hd & Hbd).
      unfold box_detection in Hbd.
      destruct (names (model a) !! cls b) as [label|]; [|done].
      injection Hbd as <-. by exists label.
    + apply not_elem_of_dom, is_fresh.
    + apply lookup_insert_eq.
    + intros l Hl. by apply lookup_insert_ne.
    + done.
  - apply mapM_None_1, Exists_exists in E as (b & Hb & Hnone).
    destruct (Hnames b Hb) as [label Hl].
    unfold box_detection in Hnone. by rewrite Hl in Hnone.
Qed.

(** [get_detections] raises exactly when some detected box has a class
    without a name. *)
Theorem get_detections_raises_iff frame a w :
  heap w !! frame = Some a →
  get_detections frame w = None
  ↔ ∃ b, b ∈ boxes (model a) ∧ names (model a) !! cls b = None.
Proof.
  intros Ha. rewrite (get_detections_run _ _ _ Ha). split.
  - destruct (mapM _ _) eqn:E; [done|]. intros _.
    apply mapM_None_1, Exists_exists in E as (b & Hb & Hnone).
    exists b. split; [done|]. unfold box_detection in Hnone.
    by destruct (names (model a) !! cls b).
  - intros (b & Hb & Hnone).
    rewrite mapM_None_2; [done|]. apply Exists_exists. exists b.
    split; [done|]. unfold box_detection. by rewrite Hnone.
Qed.

(** ** [load_reference] and [open_test_file] *)

Lemma show_image_run img a w :
  heap w !! img = Some a →
  show_image img w
  = Some (tt, {| heap := <[fresh (dom (heap w)) := cvtColor_BGR2RGBA a]> (heap w);
                 cv2_calls := cv2_calls w;
                 ui := ui w ++ [pack_image (cvtColor_BGR2RGBA a)] |}).
Proof.
  intros Ha. unfold show_image.
  erewrite bind_run by (unfold read; by rewrite Ha).
  erewrite bind_run by reflexivity.
  erewrite bind_run by (unfold read; simpl; by rewrite lookup_insert_eq).
  done.
Qed.

Lemma askopenfilename_run title w :
  filedialog_askopenfilename title w
  = Some (chosen_file title,
          {| heap := heap w; cv2_calls := cv2_calls w;
             ui := ui w ++ [askopenfilename title] |}).
Proof. done. Qed.

Lemma insert_fresh_kept (h : gmap loc ndarray) (x : ndarray) l a :
  h !! l = Some a → <[fresh (dom h) := x]> h !! l = Some a.
Proof.
  intros Hl. rewrite lookup_insert_ne; [done|]. by eapply fresh_ne.
Qed.

(** A cancelled dialog or an unreadable file leaves the reference as it
    was, loaded or not: the method returns the object unchanged, allocates
    and draws nothing, and, after the dialog, shows only the error for the
    unreadable file. *)
Theorem load_reference_failure_keeps_reference (self : PCBApp) (w : world) :
  chosen_file "Select Reference PCB" = ""
  ∨ imread_px (chosen_file "Select Reference PCB") = None →
  ∃ w',
    load_reference self w = Some (self, w')
    ∧ heap w' = heap w
    ∧ cv2_calls w' = cv2_calls w
    ∧ ui w'
      = ui w ++ askopenfilename "Select Reference PCB"
             :: (if bool_decide (chosen_file "Select Reference PCB" = "") then []
                 else [showerror "Error" "Could not read reference image"]).
Proof.
  intros Hfail. unfold load_reference.
  erewrite bind_run by apply askopenfilename_run.
  case_bool_decide as Hpath.
  - eexists. split; [done|]. by repeat split.
  - destruct Hfail as [?|Hread]; [done|].
    erewrite bind_run by (unfold cv2_imread; by rewrite Hread).
    eexists. split; [done|]. simpl. repeat split.
    by rewrite <- app_assoc.
Qed.

Lemma load_reference_run
    (self : PCBApp) (w : world) (img : ndarray) (ds : list detection) :
  chosen_file "Select Reference PCB" ≠ "" →
  imread_px (chosen_file "Select Reference PCB") = Some img →
  mapM (box_detection (model img)) (boxes (model img)) = Some ds →
  let h1 := <[fresh (dom (heap w)) := img]> (heap w) in
  let h2 := <[fresh (dom h1) := plot (model img)]> h1 in
  load_reference self w
  = Some ({| reference_detections := Some ds |},
          {| heap := <[fresh (dom h2) := cvtColor_BGR2RGBA (plot (model img))]> h2;
             cv2_calls := cv2_calls w;
             ui := ui w ++ [ askopenfilename "Select Reference PCB";
                             destroy_children;
                             pack_image (cvtColor_BGR2RGBA (plot (model img)));
                             pack_text "Reference PCB loaded successfully!" ] |}).
Proof.
  intros Hpath Hread Hds h1 h2. unfold load_reference.
  erewrite bind_run by apply askopenfilename_run.
  rewrite bool_decide_eq_false_2 by done.
  erewrite bind_run; cycle 1.
  { unfold cv2_imread. rewrite Hread. by erewrite bind_run. }
  cbv beta iota.
  erewrite bind_run; cycle 1.
  { erewrite get_detections_run by apply lookup_insert_eq. by rewrite Hds. }
  cbv beta iota zeta.
  erewrite bind_run by reflexivity.
  erewrite bind_run by (apply show_image_run, lookup_insert_eq).
  erewrite bind_run by reflexivity.
  unfold mret, M_ret. simpl. by rewrite <- !app_assoc.
Qed.

(** A successful load replaces the reference, whatever it was, by the
    detections of the chosen image, clears the main area and shows the
    plotted image and the success text; it draws nothing and leaves every
    array that was alive as it was. *)
Theorem load_reference_sets_reference
    (self : PCBApp) (w : world) (img : ndarray) (ds : list detection) :
  chosen_file "Select Reference PCB" ≠ "" →
  imread_px (chosen_file "Select Reference PCB") = Some img →
  mapM (box_detection (model img)) (boxes (model img)) = Some ds →
  ∃ w',
    load_reference self w = Some ({| reference_detections := Some ds |}, w')
    ∧ ui w'
      = ui w ++ [ askopenfilename "Select Reference PCB";
                  destroy_children;
                  pack_image (cvtColor_BGR2RGBA (plot (model img)));
                  pack_text "Reference PCB loaded successfully!" ]
    ∧ cv2_calls w' = cv2_calls w
    ∧ ∀ l a, heap w !! l = Some a → heap w' !! l = Some a.
Proof.
  intros Hpath Hread Hds. eexists.
  split; [by apply load_reference_run|]. simpl.
  split; [done|]. split; [done|]. intros l a Hl.
  do 3 (apply insert_fresh_kept). done.
Qed.

(** With a reference loaded, a cancelled dialog or an unreadable file ends
    the method without a comparison: nothing is allocated or drawn, the main
    area is not cleared, and after the dialog only the error for the
    unreadable file is shown. *)
Theorem open_test_file_without_image
    (self : PCBApp) (reference : list detection) (w : world) :
  reference_detections self = Some reference →
  chosen_file "Select Test PCB" = ""
  ∨ imread_px (chosen_file "Select Test PCB") = None →
  ∃ w',
    open_test_file self w = Some (tt, w')
    ∧ heap w' = heap w
    ∧ cv2_calls w' = cv2_calls w
    ∧ ui w'
      = ui w ++ askopenfilename "Select Test PCB"
             :: (if bool_decide (chosen_file "Select Test PCB" = "") then []
                 else [showerror "Error" "Could not read test image"]).
Proof.
  intros Href Hfail. unfold open_test_file. rewrite Href.
  erewrite bind_run by apply askopenfilename_run.
  case_bool_decide as Hpath.
  - eexists. split; [done|]. by repeat split.
  - destruct Hfail as [?|Hread]; [done|].
    erewrite bind_run by (unfold cv2_imread; by rewrite Hread).
    eexists. split; [done|]. simpl. repeat split.
    by rewrite <- app_assoc.
Qed.

Lemma open_test_file_run
    (self : PCBApp) (reference test : list detection) (img : ndarray) (w : world) :
  reference_detections self = Some reference →
  chosen_file "Select Test PCB" ≠ "" →
  imread_px (chosen_file "Select Test PCB") = Some img →
  mapM (box_detection (model img)) (boxes (model img)) = Some test →
  let h1 := <[fresh (dom (heap w)) := img]> (heap w) in
  let h2 := <[fresh (dom h1) := plot (model img)]> h1 in
  let annotated := fresh (dom h2) in
  let result := paint img (draw_calls annotated reference test) in
  let h3 := <[annotated := result]> h2 in
  open_test_file self w
  = Some (tt,
          {| heap := <[fresh (dom h3) := cvtColor_BGR2RGBA result]> h3;
             cv2_calls := cv2_calls w ++ draw_calls annotated reference test;
             ui := ui w ++ [ askopenfilename "Select Test PCB";
                             destroy_children;
                             pack_image (cvtColor_BGR2RGBA result);
                             pack_text "Test PCB checked against reference!" ] |}).
Proof.
  intros Href Hpath Hread Hds h1 h2 annotated result h3.
  unfold open_test_file. rewrite Href.
  erewrite bind_run by apply askopenfilename_run.
  rewrite bool_decide_eq_false_2 by done.
  erewrite bind_run; cycle 1.
  { unfold cv2_imread. rewrite Hread. by erewrite bind_run. }
  cbv beta iota.
  erewrite bind_run; cycle 1.
  { erewrite get_detections_run by apply lookup_insert_eq. by rewrite Hds. }
  cbv beta iota zeta.
  erewrite bind_run; cycle 1.
  { eapply compare_pcbs_run. simpl. apply insert_fresh_kept, lookup_insert_eq. }
  erewrite bind_run by reflexivity.
  erewrite bind_run by (apply show_image_run, lookup_insert_eq).
  unfold ui_do; simpl. by rewrite <- !app_assoc.
Qed.

(** With a reference loaded, a readable file and named classes, the method
    compares the detections of the file with the reference on a copy of the
    image: it makes exactly the drawing calls of that comparison, clears the
    main area, shows the converted annotated copy and the closing text, and
    leaves the image it read and every array that was alive as they were. *)
Theorem open_test_file_compares
    (self : PCBApp) (reference test : list detection) (img : ndarray) (w : world) :
  reference_detections self = Some reference →
  chosen_file "Select Test PCB" ≠ "" →
  imread_px (chosen_file "Select Test PCB") = Some img →
  mapM (box_detection (model img)) (boxes (model img)) = Some test →
  ∃ frame annotated w',
    open_test_file self w = Some (tt, w')
    ∧ new_calls w w' = draw_calls annotated reference test
    ∧ ui w'
      = ui w ++ [ askopenfilename "Select Test PCB";
                  destroy_children;
                  pack_image (cvtColor_BGR2RGBA
                                (paint img (draw_calls annotated reference test)));
                  pack_text "Test PCB checked against reference!" ]
    ∧ heap w !! frame = None
    ∧ heap w' !! frame = Some img
    ∧ heap w' !! annotated = Some (paint img (draw_calls annotated reference test))
    ∧ ∀ l a, heap w !! l = Some a → heap w' !! l = Some a.
Proof.
  intros Href Hpath Hread Hds.
  exists (fresh (dom (heap w))). eexists _, _.
  split; [by apply open_test_file_run|]. simpl.
  split; [apply drop_app_length|].
  split; [done|].
  split; [apply not_elem_of_dom, is_fresh|].
  split; [do 3 (apply insert_fresh_kept); apply lookup_insert_eq|].
  split; [apply insert_fresh_kept, lookup_insert_eq|].
  intros l a Hl. do 4 (apply insert_fresh_kept). done.
Qed.

(** A board compared with itself passes: when the reference and the test
    are read from the same image file, every drawing call of the comparison
    is made in green, there are two calls per detection, and no "Missing"
    line. *)
Theorem same_image_passes
    (self : PCBApp) (img : ndarray) (ds : list detection) (w : world) :
  chosen_file "Select Reference PCB" ≠ "" →
  chosen_file "Select Test PCB" = chosen_file "Select Reference PCB" →
  imread_px (chosen_file "Select Reference PCB") = Some img →
  mapM (box_detection (model img)) (boxes (model img)) = Some ds →
  ∃ self' w1 w2,
    load_reference self w = Some (self', w1)
    ∧ open_test_file self' w1 = Some (tt, w2)
    ∧ (∀ c, c ∈ new_calls w1 w2 → call_color c = GREEN)
    ∧ length (new_calls w1 w2) = (2 * length ds)%nat.
Proof.
  intros Hpath Hsame Hread Hds.
  assert (Hpath' : chosen_file "Select Test PCB" ≠ "") by by rewrite Hsame.
  assert (Hread' : imread_px (chosen_file "Select Test PCB") = Some img)
    by by rewrite Hsame.
  eexists _, _, _.
  split; [by apply load_reference_run|].
  split; [by apply open_test_file_run|].
  unfold new_calls; simpl. rewrite drop_app_length. split.
  - by apply draw_calls_green_iff.
  - unfold draw_calls. rewrite length_app, entries_length_calls, length_fmap.
    assert (Hnil : missing_entries ds ds = []) by by apply missing_nil_iff.
    rewrite Hnil. unfold entries. rewrite length_fmap. simpl. lia.
Qed.

(** ** Camera mode *)

Lemma cm_bind_run {A B} (m : CM A) (k : A → CM B) cw a cw' :
  m cw = Some (a, cw') → (m ≫= k) cw = k a cw'.
Proof. intros H. unfold mbind, CM_bind. by rewrite H. Qed.

Lemma lift_run {A} (m : M A) cw a w' :
  m (base cw) = Some (a, w') →
  lift m cw = Some (a, {| base := w'; effects := effects cw; reads := reads cw |}).
Proof. intros H. unfold lift. by rewrite H. Qed.

(** What a read delivers in a world: the next frame of an open capture. *)
Lemma cap_read_frame_none c cw :
  isOpened c = false ∨ camera_frame (reads cw) = None →
  cap_read_frame c cw
  = Some (None, {| base := base cw; effects := effects cw ++ [cap_read];
                   reads := if isOpened c then S (reads cw) else reads cw |}).
Proof.
  intros H. unfold cap_read_frame.
  erewrite cm_bind_run by reflexivity.
  destruct (isOpened c); [|done].
  destruct H as [|H]; [done|].
  erewrite cm_bind_run by reflexivity. simpl. by rewrite H.
Qed.

Lemma cap_read_frame_some c cw img :
  isOpened c = true → camera_frame (reads cw) = Some img →
  cap_read_frame c cw
  = Some (Some (fresh (dom (heap (base cw)))),
          {| base := {| heap := <[fresh (dom (heap (base cw))) := img]> (heap (base cw));
                        cv2_calls := cv2_calls (base cw); ui := ui (base cw) |};
             effects := effects cw ++ [cap_read];
             reads := S (reads cw) |}).
Proof.
  intros Ho H. unfold cap_read_frame.
  erewrite cm_bind_run by reflexivity. rewrite Ho.
  erewrite cm_bind_run by reflexivity. simpl. rewrite H.
  by erewrite cm_bind_run by reflexivity.
Qed.

(** Without a stored capture, or with the running flag down, as on the
    freshly built application, [capture_image] only warns: it reads no
    frame, writes no file and shows no other message. *)
Theorem capture_image_not_running (self : camera) (now : datetime) cw :
  cap self = None ∨ camera_running self = false →
  capture_image self now cw
  = Some (tt, {| base := {| heap := heap (base cw);
                            cv2_calls := cv2_calls (base cw);
                            ui := ui (base cw)
                                  ++ [showwarning "Warning" "Camera is not running"] |};
                 effects := effects cw;
                 reads := reads cw |}).
Proof.
  intros H. unfold capture_image.
  destruct (cap self) as [c|], (camera_running self); try done.
  by destruct H.
Qed.

(** With the camera running, a frame delivered and named classes,
    [capture_image] writes the plotted image of that frame, not the raw
    frame, to the file named after the moment, and then reports that file;
    it shows no warning and leaves every array that was alive as it was. *)
Theorem capture_image_saves
    (self : camera) (c : capture) (now : datetime) (img : ndarray)
    (ds : list detection) cw :
  cap self = Some c →
  camera_running self = true →
  isOpened c = true →
  camera_frame (reads cw) = Some img →
  mapM (box_detection (model img)) (boxes (model img)) = Some ds →
  ∃ cw',
    capture_image self now cw = Some (tt, cw')
    ∧ effects cw'
      = effects cw
        ++ [ cap_read;
             imwrite (capture_filename now) (plot (model img));
             showinfo "Captured" ("Labeled image saved as " +:+ capture_filename now) ]
    ∧ ui (base cw') = ui (base cw)
    ∧ cv2_calls (base cw') = cv2_calls (base cw)
    ∧ reads cw' = S (reads cw)
    ∧ ∀ l a, heap (base cw) !! l = Some a → heap (base cw') !! l = Some a.
Proof.
  intros Hcap Hrun Ho Hframe Hds. unfold capture_image. rewrite Hcap, Hrun.
  erewrite cm_bind_run by by apply cap_read_frame_some.
  cbv beta iota.
  erewrite cm_bind_run; cycle 1.
  { apply lift_run. simpl.
    erewrite get_detections_run by apply lookup_insert_eq. by rewrite Hds. }
  erewrite cm_bind_run; cycle 1.
  { apply lift_run. unfold read; simpl. by rewrite lookup_insert_eq. }
  cbv beta iota zeta.
  erewrite cm_bind_run by reflexivity.
  eexists. split; [done|]. simpl.
  split; [by rewrite <- !app_assoc|]. do 3 (split; [done|]).
  intros l a Hl. do 2 (apply insert_fresh_kept). done.
Qed.

(** With the camera running but no frame delivered, [capture_image] does
    nothing beyond the read: no file, no message and no warning. *)
Theorem capture_image_silent_without_frame
    (self : camera) (c : capture) (now : datetime) cw :
  cap self = Some c →
  camera_running self = true →
  isOpened c = false ∨ camera_frame (reads cw) = None →
  ∃ cw',
    capture_image self now cw = Some (tt, cw')
    ∧ effects cw' = effects cw ++ [cap_read]
    ∧ base cw' = base cw.
Proof.
  intros Hcap Hrun Hnone. unfold capture_image. rewrite Hcap, Hrun.
  erewrite cm_bind_run by by apply cap_read_frame_none.
  eexists. by split.
Qed.

Lemma update_frame_run_none (self : camera) (c : capture) cw :
  camera_running self = true →
  cap self = Some c →
  isOpened c = false ∨ camera_frame (reads cw) = None →
  update_frame self cw
  = Some (tt, {| base := base cw;
                 effects := effects cw ++ [cap_read; after 30];
                 reads := if isOpened c then S (reads cw) else reads cw |}).
Proof.
  intros Hrun Hcap Hnone. unfold update_frame. rewrite Hrun, Hcap. simpl.
  erewrite cm_bind_run by by apply cap_read_frame_none.
  erewrite cm_bind_run by reflexivity.
  unfold effect_do; simpl. by rewrite <- app_assoc.
Qed.

Lemma update_frame_run_some (self : camera) (c : capture) (img : ndarray)
    (ds : list detection) cw :
  camera_running self = true →
  cap self = Some c →
  isOpened c = true →
  camera_frame (reads cw) = Some img →
  mapM (box_detection (model img)) (boxes (model img)) = Some ds →
  let h1 := <[fresh (dom (heap (base cw))) := img]> (heap (base cw)) in
  let h2 := <[fresh (dom h1) := plot (model img)]> h1 in
  update_frame self cw
  = Some (tt,
          {| base := {| heap := <[fresh (dom h2) := cvtColor_BGR2RGBA (plot (model img))]> h2;
                        cv2_calls := cv2_calls (base cw);
                        ui := ui (base cw) |};
             effects := effects cw
                        ++ [ cap_read;
                             configure_video (cvtColor_BGR2RGBA (plot (model img)));
                             after 30 ];
             reads := S (reads cw) |}).
Proof.
  intros Hrun Hcap Ho Hframe Hds h1 h2.
  unfold update_frame. rewrite Hrun, Hcap. simpl.
  erewrite cm_bind_run by by apply cap_read_frame_some.
  cbv beta iota.
  erewrite cm_bind_run; cycle 1.
  { erewrite cm_bind_run; cycle 1.
    { apply lift_run. simpl.
      erewrite get_detections_run by apply lookup_insert_eq. by rewrite Hds. }
    erewrite cm_bind_run; cycle 1.
    { apply lift_run. unfold read; simpl. by rewrite lookup_insert_eq. }
    erewrite cm_bind_run by (by apply lift_run).
    erewrite cm_bind_run; cycle 1.
    { apply lift_run. unfold read; simpl. by rewrite lookup_insert_eq. }
    reflexivity. }
  unfold effect_do; simpl. by rewrite <- !app_assoc.
Qed.


(** Closing stops the camera for good: the flag is down and the capture
    released, before the window is destroyed; a callback that is still
    pending then does nothing and schedules nothing, and a capture request
    only warns. *)
Theorem on_closing_stops (self : camera) (now : datetime) cw :
  ∃ self' cw',
    on_closing self cw = Some (self', cw')
    ∧ camera_running self' = false
    ∧ base cw' = base cw
    ∧ effects cw'
      = effects cw
        ++ match cap self with Some _ => [cap_release] | None => [] end
        ++ [root_destroy]
    ∧ update_frame self' cw' = Some (tt, cw')
    ∧ ∃ cw'',
        capture_image self' now cw' = Some (tt, cw'')
        ∧ effects cw'' = effects cw'
        ∧ ui (base cw'')
          = ui (base cw') ++ [showwarning "Warning" "Camera is not running"].
Proof.
  unfold on_closing. destruct (cap self) as [c|].
  - erewrite cm_bind_run by reflexivity. erewrite cm_bind_run by reflexivity.
    eexists _, _. split; [done|]. simpl. split; [done|]. split; [done|].
    split; [by rewrite <- app_assoc|]. split; [done|].
    eexists. by split.
  - erewrite cm_bind_run by reflexivity.
    eexists _, _. split; [done|]. simpl. split; [done|]. split; [done|].
    split; [done|]. split; [done|].
    eexists. by split.
Qed.

(** When the device does not open, [open_camera] has already cleared the
    main area and stored the unopened capture; it shows the error, leaves
    the running flag as it was and starts no callback. *)
Theorem open_camera_unavailable (self : camera) cw :
  camera_available = false →
  open_camera self cw
  = Some ({| cap := Some {| isOpened := false |};
             camera_running := camera_running self |},
          {| base := {| heap := heap (base cw);
                        cv2_calls := cv2_calls (base cw);
                        ui := ui (base cw)
                              ++ [destroy_children;
                                  showerror "Error" "Cannot open camera"] |};
             effects := effects cw ++ [VideoCapture 0];
             reads := reads cw |}).
Proof.
  intros Hno. unfold open_camera.
  erewrite cm_bind_run by reflexivity. erewrite cm_bind_run by reflexivity.
  simpl. rewrite Hno. simpl.
  erewrite cm_bind_run by reflexivity.
  unfold mret, CM_ret. simpl. by rewrite <- app_assoc.
Qed.


(** The running flag is never up without a stored capture: this holds on
    the freshly built application and after every [open_camera] and
    [on_closing]; under it the callback can only raise through a detected
    class without a name, never through a missing capture. *)
Theorem camera_running_has_capture :
  camera_ok init_camera
  ∧ (∀ self cw self' cw', open_camera self cw = Some (self', cw') → camera_ok self')
  ∧ (∀ self cw self' cw', on_closing self cw = Some (self', cw') → camera_ok self')
  ∧ (∀ self cw, camera_ok self → update_frame self cw = None →
       ∃ c img, cap self = Some c ∧ isOpened c = true
                ∧ camera_frame (reads cw) = Some img
                ∧ mapM (box_detection (model img)) (boxes (model img)) = None).
Proof.
  split; [by intros ?|]. split; [|split].
  - intros self cw self' cw' H. unfold open_camera in H.
    erewrite cm_bind_run in H by reflexivity.
    erewrite cm_bind_run in H by reflexivity.
    simpl in H. destruct camera_available; simpl in H.
    + erewrite cm_bind_run in H by reflexivity.
      erewrite cm_bind_run in H by reflexivity.
      unfold mbind, CM_bind in H.
      destruct (update_frame _ _) as [[[] cw1]|]; [|done].
      injection H as <- _. by intros _; eexists.
    + erewrite cm_bind_run in H by reflexivity.
      injection H as <- _. by intros _; eexists.
  - intros self cw self' cw' H. unfold on_closing in H.
    destruct (cap self).
    + injection H as <- _. by intros _; eexists.
    + injection H as <- _. by intros ?.
  - intros self cw Hok Hnone.
    destruct (camera_running self) eqn:Hrun;
      [|unfold update_frame in Hnone; by rewrite Hrun in Hnone].
    destruct (Hok Hrun) as [c Hc]. exists c.
    destruct (isOpened c) eqn:Ho;
      [|rewrite (update_frame_run_none self c) in Hnone by auto; done].
    destruct (camera_frame (reads cw)) as [img|] eqn:Hf;
      [|rewrite (update_frame_run_none self c) in Hnone by auto; done].
    exists img.
    destruct (mapM (box_detection (model img)) (boxes (model img))) as [ds|] eqn:Hds;
      [|done].
    by rewrite (update_frame_run_some self c img ds) in Hnone.
Qed.

(** ** The name of a captured image *)

Lemma digit_inj (a b : Z) : digit a = digit b → a mod 10 = b mod 10.
Proof.
  unfold digit. intros H. apply (f_equal Ascii.N_of_ascii) in H.
  pose proof (Z.mod_pos_bound a 10 eq_refl).
  pose proof (Z.mod_pos_bound b 10 eq_refl).
  rewrite !Ascii.N_ascii_embedding in H by lia. lia.
Qed.

(** The file name of a capture determines its moment: captures at
    different seconds never share a file, so only captures within the same
    second overwrite each other. *)
Theorem capture_filename_distinct (t1 t2 : datetime) :
  valid_datetime t1 → valid_datetime t2 →
  t1 ≠ t2 → capture_filename t1 ≠ capture_filename t2.
Proof.
  intros (Hy1 & Hm1 & Hd1 & HH1 & HM1 & HS1) (Hy2 & Hm2 & Hd2 & HH2 & HM2 & HS2) Hne H.
  apply Hne. clear Hne.
  destruct t1 as [y1 m1 d1 h1 mi1 s1], t2 as [y2 m2 d2 h2 mi2 s2].
  unfold capture_filename, save_folder, strftime_stamp, pad4, pad2 in H.
  cbn [year month day hour minute second] in *.
  cbv [String.append] in H.
  repeat match goal with
         | E : String _ _ = String _ _ |- _ => injection E; clear E; intros
         end.
  repeat match goal with
         | E : digit _ = digit _ |- _ => apply digit_inj in E
         end.
  f_equal; Z.div_mod_to_equations; lia.
Qed.

End Program.

(** ** The theorems at concrete inputs

    The runs below use the small rasteriser, the board image and the
    scenario's detection sets. *)

Lemma C1_absent : "C1" ∉ labels test_scn.
Proof. apply (bool_decide_unpack _). by vm_compute. Qed.

Lemma R1_present : "R1" ∈ labels ref_scn.
Proof. apply (bool_decide_unpack _). by vm_compute. Qed.

Lemma C2_absent : "C2" ∉ labels ref_scn.
Proof. apply (bool_decide_unpack _). by vm_compute. Qed.

(** C1 fails as stated: C1 occurs twice in the reference and never in the
    test, and the missing sequence holds it twice, not once; both lines are
    drawn. *)
Lemma missing_not_deduplicated :
  ("C1" ∉ labels test_scn)
  ∧ count_label "C1" (labels ref_scn) = 2%nat
  ∧ missing_entries ref_scn test_scn = ["C1"; "C1"]
  ∧ missing_entries ref_scn test_scn ≠ ["C1"]
  ∧ count_label "C1" (missing_entries ref_scn test_scn) ≠ 1%nat
  ∧ (new_calls world0 <$> (snd <$> compare_pcbs outline_px mark_px ref_scn test_scn 1 world0))
    = Some [ Rectangle 2 (0, 0) (1, 1) GREEN 2;
             PutText 2 "R1" (0, -5) FONT_HERSHEY_SIMPLEX (6 # 10) GREEN 2;
             Rectangle 2 (0, 2) (1, 3) RED 2;
             PutText 2 "C2" (0, -3) FONT_HERSHEY_SIMPLEX (6 # 10) RED 2;
             PutText 2 "Missing: C1" (20, 40) FONT_HERSHEY_SIMPLEX (8 # 10) RED 2;
             PutText 2 "Missing: C1" (20, 70) FONT_HERSHEY_SIMPLEX (8 # 10) RED 2 ].
Proof.
  split; [exact C1_absent|].
  split; [by vm_compute|]. split; [by vm_compute|].
  split; [by vm_compute|]. split; [by vm_compute|]. by vm_compute.
Qed.

Lemma missing_one_per_reference_occurrence_scenario :
  ("C1" ∉ labels test_scn)
  ∧ count_label "C1" (missing_entries ref_scn test_scn) = 2%nat.
Proof.
  split; [exact C1_absent|].
  rewrite (missing_one_per_reference_occurrence ref_scn test_scn "C1" C1_absent).
  reflexivity.
Defined.

Lemma classification_by_membership_scenario :
  heap world0 !! 1%positive = Some board
  ∧ ∃ annotated w',
      compare_pcbs outline_px mark_px ref_scn test_twice 1 world0 = Some (annotated, w')
      ∧ new_calls world0 w' !! 0%nat = Some (Rectangle annotated (0, 0) (1, 1) GREEN 2)
      ∧ new_calls world0 w' !! 2%nat = Some (Rectangle annotated (2, 2) (3, 3) GREEN 2)
      ∧ new_calls world0 w' !! 4%nat = Some (Rectangle annotated (0, 2) (1, 3) RED 2).
Proof.
  split; [reflexivity|].
  destruct (classification_by_membership outline_px mark_px ref_scn test_twice
              1 board world0 eq_refl) as (annotated & w' & Hrun & Hall).
  exists annotated, w'. split; [exact Hrun|]. split; [|split].
  - destruct (Hall 0%nat "R1" 0 0 1 1 eq_refl) as (s & _ & Hs & _ & Hr & _).
    rewrite (Hs R1_present) in Hr. exact Hr.
  - destruct (Hall 1%nat "R1" 2 2 3 3 eq_refl) as (s & _ & Hs & _ & Hr & _).
    rewrite (Hs R1_present) in Hr. exact Hr.
  - destruct (Hall 2%nat "C2" 0 2 1 3 eq_refl) as (s & _ & _ & Hs & Hr & _).
    rewrite (Hs C2_absent) in Hr. exact Hr.
Defined.

Lemma one_entry_per_test_detection_scenario :
  heap world0 !! 1%positive = Some board
  ∧ length (entries ref_scn test_scn) = 2%nat
  ∧ (∃ s, entries ref_scn test_scn !! 1%nat = Some ("C2", (0, 2, 1, 3), s)
          ∧ ∀ s', entries ref_scn test_scn !! 1%nat = Some ("C2", (0, 2, 1, 3), s')
                  → s' = s)
  ∧ ∃ annotated w',
      compare_pcbs outline_px mark_px ref_scn test_scn 1 world0 = Some (annotated, w')
      ∧ length (take 4 (new_calls world0 w')) = 4%nat.
Proof.
  split; [reflexivity|].
  destruct (one_entry_per_test_detection outline_px mark_px ref_scn test_scn
              1 board world0 eq_refl)
    as (Hlen & Hone & _ & annotated & w' & Hrun & Htake & _).
  split; [exact Hlen|].
  split; [exact (Hone 1%nat ("C2", (0, 2, 1, 3)) eq_refl)|].
  exists annotated, w'. split; [exact Hrun|].
  change (2 * length test_scn)%nat with 4%nat in Htake. by rewrite Htake.
Defined.

(** C5 fails as stated: the reference holds C1, C2 and C1 again, none of
    them in the test; by first occurrence the absent labels are C1, C2, but
    the missing sequence is C1, C2, C1, and three lines are drawn. *)
Lemma missing_not_in_first_occurrence_order :
  filter (λ l, l ∉ labels test_r1) (first_occurrences (labels ref_again))
  = ["C1"; "C2"]
  ∧ missing_entries ref_again test_r1 = ["C1"; "C2"; "C1"]
  ∧ missing_entries ref_again test_r1
    ≠ filter (λ l, l ∉ labels test_r1) (first_occurrences (labels ref_again))
  ∧ (new_calls world0 <$> (snd <$> compare_pcbs outline_px mark_px ref_again test_r1 1 world0))
    = Some [ Rectangle 2 (0, 2) (1, 3) RED 2;
             PutText 2 "R1" (0, -3) FONT_HERSHEY_SIMPLEX (6 # 10) RED 2;
             PutText 2 "Missing: C1" (20, 40) FONT_HERSHEY_SIMPLEX (8 # 10) RED 2;
             PutText 2 "Missing: C2" (20, 70) FONT_HERSHEY_SIMPLEX (8 # 10) RED 2;
             PutText 2 "Missing: C1" (20, 100) FONT_HERSHEY_SIMPLEX (8 # 10) RED 2 ].
Proof.
  split; [by vm_compute|]. split; [by vm_compute|].
  split; [by vm_compute|]. by vm_compute.
Qed.

Lemma result_follows_input_order_scenario :
  heap world0 !! 1%positive = Some board
  ∧ ∃ annotated w',
      compare_pcbs outline_px mark_px ref_again test_r1 1 world0 = Some (annotated, w')
      ∧ (∃ c, new_calls world0 w' !! 0%nat
              = Some (Rectangle annotated (0, 2) (1, 3) c 2))
      ∧ drop 2 (new_calls world0 w')
        = missing_call annotated <$> enumerate ["C1"; "C2"; "C1"]
      ∧ first_occurrences (missing_entries ref_again test_r1) = ["C1"; "C2"].
Proof.
  split; [reflexivity|].
  destruct (result_follows_input_order outline_px mark_px ref_again test_r1
              1 board world0 eq_refl)
    as (annotated & w' & Hrun & _ & Hentries & Hlines & _ & _ & Hfirst).
  exists annotated, w'. split; [exact Hrun|]. split; [|split].
  - destruct (Hentries 0%nat "R1" 0 2 1 3 eq_refl) as (c & Hc & _).
    exists c. exact Hc.
  - exact Hlines.
  - rewrite Hfirst. by vm_compute.
Defined.

Lemma empty_reference_scenario :
  heap world0 !! 1%positive = Some board
  ∧ entries [] test_scn = [("R1", (0, 0, 1, 1), EXTRA); ("C2", (0, 2, 1, 3), EXTRA)]
  ∧ missing_entries [] test_scn = []
  ∧ ∃ annotated w',
      compare_pcbs outline_px mark_px [] [] 1 world0 = Some (annotated, w')
      ∧ new_calls world0 w' = [] ∧ heap w' !! annotated = Some board.
Proof.
  split; [reflexivity|].
  destruct (empty_reference outline_px mark_px test_scn 1 board world0 eq_refl)
    as (He & Hm & _ & annotated & w' & Hrun & _ & _ & Hc & Hh).
  split; [exact He|]. split; [exact Hm|].
  exists annotated, w'. by repeat split.
Defined.

Lemma base_image_untouched_scenario :
  heap world0 !! 1%positive = Some board
  ∧ ∃ annotated w',
      compare_pcbs outline_px mark_px ref_scn test_scn 1 world0 = Some (annotated, w')
      ∧ annotated ≠ 1%positive
      ∧ heap w' !! 1%positive = Some board.
Proof.
  split; [reflexivity|].
  destruct (base_image_untouched outline_px mark_px ref_scn test_scn
              1 board world0 eq_refl)
    as (annotated & w' & Hrun & Hne & _ & Hbase & _).
  exists annotated, w'. by repeat split.
Defined.

Lemma render_deterministic_scenario :
  heap world0 !! 1%positive = Some board
  ∧ heap world1 !! 5%positive = Some board
  ∧ entries ref_scn test_scn = entries ref_moved test_scn
  ∧ missing_entries ref_scn test_scn = missing_entries ref_moved test_scn
  ∧ ∃ r1 w1' r2 w2' out,
      compare_pcbs outline_px mark_px ref_scn test_scn 1 world0 = Some (r1, w1')
      ∧ compare_pcbs outline_px mark_px ref_moved test_scn 5 world1 = Some (r2, w2')
      ∧ heap w1' !! r1 = Some out
      ∧ heap w2' !! r2 = Some out.
Proof.
  split; [reflexivity|]. split; [reflexivity|].
  split; [reflexivity|]. split; [reflexivity|].
  destruct (render_deterministic outline_px mark_px ref_scn test_scn
              ref_moved test_scn 1 5 board world0 world1
              eq_refl eq_refl eq_refl eq_refl)
    as (r1 & w1' & r2 & w2' & out & H1 & H2 & Ho1 & Ho2 & _).
  exists r1, w1', r2, w2', out. by repeat split.
Defined.

Lemma missing_lines_scenario :
  heap world0 !! 1%positive = Some board
  ∧ ∃ annotated w' lines,
      compare_pcbs outline_px mark_px ref_scn test_scn 1 world0 = Some (annotated, w')
      ∧ length lines = 2%nat
      ∧ lines !! 1%nat
        = Some (PutText annotated "Missing: C1" (20, 70) FONT_HERSHEY_SIMPLEX
                        (8 # 10) RED 2).
Proof.
  split; [reflexivity|].
  destruct (missing_lines outline_px mark_px ref_scn test_scn 1 board world0 eq_refl)
    as (annotated & w' & lines & Hrun & _ & Hlen & Hall).
  exists annotated, w', lines. split; [exact Hrun|]. split; [exact Hlen|].
  exact (Hall 1%nat "C1" eq_refl).
Defined.

Lemma annotated_same_dimensions_scenario :
  heap world0 !! 1%positive = Some board
  ∧ ∃ annotated w' out,
      compare_pcbs outline_px mark_px ref_scn test_scn 1 world0 = Some (annotated, w')
      ∧ heap w' !! annotated = Some out
      ∧ shape out = [4; 4; 3]%nat
      ∧ np_dtype out = uint8.
Proof.
  split; [reflexivity|].
  destruct (annotated_same_dimensions outline_px mark_px ref_scn test_scn
              1 board world0 eq_refl)
    as (annotated & w' & out & Hrun & Ho & Hs & Hd).
  exists annotated, w', out. by repeat split.
Defined.

(** C4 fails as stated: on the freshly built application, which has no
    reference, the method does not raise; it returns normally, as it does
    after a comparison, and the only trace is the warning. *)
Lemma no_reference_returns_normally :
  reference_detections init = None
  ∧ open_test_file outline_px mark_px blind_model cancelled unreadable
      same_pixels init world0 ≠ None
  ∧ open_test_file outline_px mark_px blind_model cancelled unreadable
      same_pixels init world0
    = Some (tt, {| heap := heap world0; cv2_calls := [];
                   ui := [showwarning "Warning" "Load a Reference PCB first"] |}).
Proof. split; [done|]. split; [by vm_compute|reflexivity]. Qed.

Lemma no_reference_warns_init :
  reference_detections init = None
  ∧ open_test_file outline_px mark_px blind_model cancelled unreadable
      same_pixels init world1
    = Some (tt, {| heap := heap world1; cv2_calls := [];
                   ui := [showerror "Error" "Could not read test image";
                          showwarning "Warning" "Load a Reference PCB first"] |})
  ∧ open_test_file outline_px mark_px blind_model cancelled unreadable
      same_pixels init world1
    ≠ open_test_file outline_px mark_px blind_model cancelled unreadable
        same_pixels {| reference_detections := Some [] |} world1.
Proof.
  split; [reflexivity|].
  exact (no_reference_warns outline_px mark_px blind_model cancelled unreadable
           same_pixels init world1 eq_refl).
Defined.

(** ** The further theorems at concrete inputs

    The file mode runs with the detector of the scenario on the board file;
    the camera delivers the board once. *)

Lemma scn_model_named :
  ∀ b, b ∈ boxes (scn_model board) → is_Some (names (scn_model board) !! cls b).
Proof.
  intros b Hb. simpl in Hb.
  repeat (apply elem_of_cons in Hb as [->|Hb]; [by eexists|]).
  by apply elem_of_nil in Hb.
Qed.

Lemma empty_test_scenario :
  heap world0 !! 1%positive = Some board
  ∧ missing_entries ref_scn [] = ["R1"; "C1"; "C1"]
  ∧ ∃ annotated w',
      compare_pcbs outline_px mark_px ref_scn [] 1 world0 = Some (annotated, w')
      ∧ length (new_calls world0 w') = 3%nat.
Proof.
  split; [reflexivity|].
  destruct (empty_test outline_px mark_px ref_scn 1 board world0 eq_refl)
    as (_ & Hm & annotated & w' & Hrun & _ & Hlen).
  split; [exact Hm|]. exists annotated, w'. by split.
Defined.

Lemma all_green_iff_same_labels_scenario :
  heap world0 !! 1%positive = Some board
  ∧ ∃ annotated w',
      compare_pcbs outline_px mark_px test_scn test_twice 1 world0 = Some (annotated, w')
      ∧ ∀ c, c ∈ new_calls world0 w' → call_color c = GREEN.
Proof.
  split; [reflexivity|].
  destruct (all_green_iff_same_labels outline_px mark_px test_scn test_twice
              1 board world0 eq_refl) as (annotated & w' & Hrun & Hiff).
  exists annotated, w'. split; [exact Hrun|].
  apply Hiff. intros l. simpl.
  rewrite !elem_of_cons, !elem_of_nil. by intuition idtac.
Defined.

Lemma reference_only_as_label_set_scenario :
  heap world0 !! 1%positive = Some board
  ∧ (∀ l, l ∈ labels ref_scn ↔ l ∈ labels ref_moved)
  ∧ entries ref_scn test_scn = entries ref_moved test_scn.
Proof.
  assert (H : ∀ l, l ∈ labels ref_scn ↔ l ∈ labels ref_moved) by done.
  split; [reflexivity|]. split; [exact H|].
  exact (proj1 (reference_only_as_label_set outline_px mark_px ref_scn ref_moved
                  test_scn 1 board world0 eq_refl H)).
Defined.

Lemma C1_in_reference : "C1" ∈ labels ref_scn.
Proof. apply (bool_decide_unpack _). by vm_compute. Qed.

Lemma reference_label_accounted_scenario :
  "C1" ∈ labels ref_scn
  ∧ (("C1" ∈ missing_entries ref_scn test_scn
      ∧ ∀ e, e ∈ entries ref_scn test_scn → e.1.1 ≠ "C1")
     ∨ (("C1" ∉ missing_entries ref_scn test_scn)
        ∧ ∃ b, ("C1", b, CORRECT) ∈ entries ref_scn test_scn)).
Proof.
  split; [exact C1_in_reference|].
  exact (reference_label_accounted ref_scn test_scn "C1" C1_in_reference).
Defined.

Lemma get_detections_returns_scenario :
  heap world0 !! 1%positive = Some board
  ∧ ∃ ds plotted w',
      get_detections scn_model 1 world0 = Some ((ds, plotted), w')
      ∧ length ds = 2%nat
      ∧ ds !! 1%nat = Some ("C2", (0, 2, 1, 3))
      ∧ heap w' !! 1%positive = Some board.
Proof.
  split; [reflexivity|].
  destruct (get_detections_returns scn_model 1 board world0 eq_refl scn_model_named)
    as (ds & plotted & w' & Hrun & Hlen & Hall & Hfresh & _ & Hkept & _).
  exists ds, plotted, w'. split; [exact Hrun|]. split; [exact Hlen|]. split.
  - destruct (Hall 1%nat {| cls := 1; xyxy := (0, 2, 1, 3) |} eq_refl)
      as (label & Hl & Hd).
    injection Hl as <-. exact Hd.
  - rewrite Hkept; [reflexivity|].
    intros <-. by vm_compute in Hfresh.
Defined.

Lemma get_detections_raises_scenario :
  heap world0 !! 1%positive = Some board
  ∧ get_detections nameless_model 1 world0 = None.
Proof.
  split; [reflexivity|].
  apply (get_detections_raises_iff nameless_model 1 board world0 eq_refl).
  exists {| cls := 7; xyxy := (0, 2, 1, 3) |}. split; [|reflexivity].
  simpl. right. left.
Defined.

Lemma load_reference_cancelled_scenario :
  cancelled "Select Reference PCB" = ""
  ∧ ∃ w',
      load_reference scn_model cancelled board_on_disk same_pixels
        {| reference_detections := Some ref_scn |} world0
      = Some ({| reference_detections := Some ref_scn |}, w')
      ∧ ui w' = [askopenfilename "Select Reference PCB"].
Proof.
  split; [reflexivity|].
  destruct (load_reference_failure_keeps_reference scn_model cancelled
              board_on_disk same_pixels
              {| reference_detections := Some ref_scn |} world0
              (or_introl eq_refl))
    as (w' & Hrun & _ & _ & Hui).
  exists w'. split; [exact Hrun|]. exact Hui.
Defined.

Lemma board_file_chosen : board_file "Select Reference PCB" ≠ "".
Proof. discriminate. Qed.

Lemma board_file_chosen_test : board_file "Select Test PCB" ≠ "".
Proof. discriminate. Qed.

Lemma load_reference_sets_reference_scenario :
  board_file "Select Reference PCB" ≠ ""
  ∧ board_on_disk (board_file "Select Reference PCB") = Some board
  ∧ mapM (box_detection (scn_model board)) (boxes (scn_model board)) = Some test_scn
  ∧ ∃ w',
      load_reference scn_model board_file board_on_disk same_pixels
        {| reference_detections := Some ref_scn |} world0
      = Some ({| reference_detections := Some test_scn |}, w')
      ∧ cv2_calls w' = []
      ∧ heap w' !! 1%positive = Some board.
Proof.
  split; [exact board_file_chosen|]. split; [reflexivity|]. split; [reflexivity|].
  destruct (load_reference_sets_reference scn_model board_file board_on_disk
              same_pixels {| reference_detections := Some ref_scn |} world0
              board test_scn board_file_chosen eq_refl eq_refl)
    as (w' & Hrun & _ & Hcalls & Hkept).
  exists w'. split; [exact Hrun|]. split; [exact Hcalls|].
  exact (Hkept 1%positive board eq_refl).
Defined.

Lemma open_test_file_unreadable_scenario :
  unreadable (board_file "Select Test PCB") = None
  ∧ ∃ w',
      open_test_file outline_px mark_px scn_model board_file unreadable same_pixels
        {| reference_detections := Some ref_scn |} world0
      = Some (tt, w')
      ∧ cv2_calls w' = []
      ∧ ui w' = [ askopenfilename "Select Test PCB";
                  showerror "Error" "Could not read test image" ].
Proof.
  split; [reflexivity|].
  destruct (open_test_file_without_image outline_px mark_px scn_model board_file
              unreadable same_pixels {| reference_detections := Some ref_scn |}
              ref_scn world0 eq_refl (or_intror eq_refl))
    as (w' & Hrun & _ & Hcalls & Hui).
  exists w'. split; [exact Hrun|]. split; [exact Hcalls|]. exact Hui.
Defined.

Lemma open_test_file_compares_scenario :
  board_file "Select Test PCB" ≠ ""
  ∧ board_on_disk (board_file "Select Test PCB") = Some board
  ∧ mapM (box_detection (scn_model board)) (boxes (scn_model board)) = Some test_scn
  ∧ ∃ annotated w',
      open_test_file outline_px mark_px scn_model board_file board_on_disk
        same_pixels {| reference_detections := Some ref_scn |} world0
      = Some (tt, w')
      ∧ new_calls world0 w' = draw_calls annotated ref_scn test_scn
      ∧ heap w' !! 1%positive = Some board.
Proof.
  split; [exact board_file_chosen_test|]. split; [reflexivity|]. split; [reflexivity|].
  destruct (open_test_file_compares outline_px mark_px scn_model board_file
              board_on_disk same_pixels {| reference_detections := Some ref_scn |}
              ref_scn test_scn board world0 eq_refl board_file_chosen_test
              eq_refl eq_refl)
    as (frame & annotated & w' & Hrun & Hcalls & _ & _ & _ & _ & Hkept).
  exists annotated, w'. split; [exact Hrun|]. split; [exact Hcalls|].
  exact (Hkept 1%positive board eq_refl).
Defined.

Lemma same_image_passes_scenario :
  board_file "Select Reference PCB" ≠ ""
  ∧ board_file "Select Test PCB" = board_file "Select Reference PCB"
  ∧ ∃ self' w1 w2,
      load_reference scn_model board_file board_on_disk same_pixels init world0
      = Some (self', w1)
      ∧ open_test_file outline_px mark_px scn_model board_file board_on_disk
          same_pixels self' w1
        = Some (tt, w2)
      ∧ (∀ c, c ∈ new_calls w1 w2 → call_color c = GREEN)
      ∧ length (new_calls w1 w2) = 4%nat.
Proof.
  split; [exact board_file_chosen|]. split; [reflexivity|].
  exact (same_image_passes outline_px mark_px scn_model board_file board_on_disk
           same_pixels init board test_scn world0 board_file_chosen
           eq_refl eq_refl eq_refl).
Defined.

Lemma capture_image_not_running_init :
  (cap init_camera = None ∨ camera_running init_camera = false)
  ∧ capture_image scn_model one_frame init_camera noon camera_world0
    = Some (tt, {| base := {| heap := heap world0; cv2_calls := [];
                              ui := [showwarning "Warning" "Camera is not running"] |};
                   effects := []; reads := 0 |}).
Proof.
  split; [left; reflexivity|].
  exact (capture_image_not_running scn_model one_frame init_camera noon
           camera_world0 (or_introl eq_refl)).
Defined.

Lemma capture_image_saves_scenario :
  one_frame (reads camera_world0) = Some board
  ∧ ∃ cw',
      capture_image scn_model one_frame running_camera noon camera_world0
      = Some (tt, cw')
      ∧ effects cw'
        = [ cap_read;
            imwrite "Captured_PCB_Images/pcb_20240309_120005.jpg" board;
            showinfo "Captured"
              "Labeled image saved as Captured_PCB_Images/pcb_20240309_120005.jpg" ].
Proof.
  split; [reflexivity|].
  destruct (capture_image_saves scn_model one_frame running_camera
              {| isOpened := true |} noon board test_scn camera_world0
              eq_refl eq_refl eq_refl eq_refl eq_refl)
    as (cw' & Hrun & Heff & _).
  exists cw'. split; [exact Hrun|]. exact Heff.
Defined.

Lemma capture_image_silent_scenario :
  one_frame (reads camera_world1) = None
  ∧ ∃ cw',
      capture_image scn_model one_frame running_camera noon camera_world1
      = Some (tt, cw')
      ∧ effects cw' = [VideoCapture 0; cap_read; cap_read]
      ∧ base cw' = world0.
Proof.
  split; [reflexivity|].
  destruct (capture_image_silent_without_frame scn_model one_frame running_camera
              {| isOpened := true |} noon camera_world1 eq_refl eq_refl
              (or_intror eq_refl))
    as (cw' & Hrun & Heff & Hbase).
  exists cw'. split; [exact Hrun|]. split; [exact Heff|]. exact Hbase.
Defined.



Lemma open_camera_unavailable_scenario :
  false = false
  ∧ open_camera scn_model same_pixels false one_frame running_camera camera_world0
    = Some ({| cap := Some {| isOpened := false |}; camera_running := true |},
            {| base := {| heap := heap world0; cv2_calls := [];
                          ui := [destroy_children;
                                 showerror "Error" "Cannot open camera"] |};
               effects := [VideoCapture 0]; reads := 0 |}).
Proof.
  split; [reflexivity|].
  exact (open_camera_unavailable scn_model same_pixels false one_frame
           running_camera camera_world0 eq_refl).
Defined.


Lemma camera_running_has_capture_scenario :
  ∃ self' cw',
    open_camera scn_model same_pixels true one_frame init_camera camera_world0
    = Some (self', cw')
    ∧ camera_ok self'.
Proof.
  destruct (open_camera scn_model same_pixels true one_frame init_camera camera_world0)
    as [[self' cw']|] eqn:E; [|by vm_compute in E].
  exists self', cw'. split; [reflexivity|].
  exact (proj1 (proj2 (camera_running_has_capture scn_model same_pixels true one_frame))
           init_camera camera_world0 self' cw' E).
Defined.

Lemma noon_valid : valid_datetime noon.
Proof. unfold valid_datetime. simpl. lia. Qed.

Lemma a_second_later_valid : valid_datetime a_second_later.
Proof. unfold valid_datetime. simpl. lia. Qed.

Lemma capture_filename_distinct_scenario :
  valid_datetime noon ∧ valid_datetime a_second_later ∧ noon ≠ a_second_later
  ∧ capture_filename noon ≠ capture_filename a_second_later.
Proof.
  assert (Hne : noon ≠ a_second_later) by discriminate.
  split; [exact noon_valid|]. split; [exact a_second_later_valid|].
  split; [exact Hne|].
  exact (capture_filename_distinct noon a_second_later noon_valid
           a_second_later_valid Hne).
Defined.
